(** * Prashanti POS analytics suite: the extraction, reconciliation and
    aggregation pipeline of [app.py], embedded in Rocq.

    Python strings are lists of characters ([str]); integers are [Z];
    dictionaries that are only looked up are [gmap]s; dictionaries whose
    insertion order is observed (the [defaultdict]s of [generate_excel]) are
    association lists.  Characters are Unicode code points and the
    character tables of the Python library are a parameter; money amounts
    are binary64 floats, added as Python adds them. *)

From Stdlib Require Import ZArith NArith Lia Ascii String List Bool Arith.
From Corelib Require Import PrimFloat Uint63Axioms.
From Stdlib Require Import Numbers.DecimalString.
From Stdlib Require Import Sorting.Sorted Sorting.Permutation.
From stdpp Require Import gmap.
Import ListNotations.

Set Default Proof Using "Type".
Set Warnings "-inexact-float".
Local Open Scope bool_scope.

(** ** Python strings *)

Module PyStr.

(** A character is a Unicode code point. *)
Definition char := N.

Definition str := list char.

(** A string literal of the source: its characters are ASCII. *)
Definition lit (s : string) : str := map N_of_ascii (list_ascii_of_string s).

(** [c] is an ASCII character. *)
Definition is_ascii (c : char) : Prop := (c < 128)%N.

(** The ASCII decimal digits '0' .. '9'. *)
Definition ascii_digit (c : char) : bool := (48 <=? c)%N && (c <=? 57)%N.

(** The ASCII whitespace of [str.isspace]: TAB, LF, VT, FF, CR, FS, GS, RS,
    US and the space. *)
Definition ascii_space (c : char) : bool :=
  ((9 <=? c)%N && (c <=? 13)%N) || ((28 <=? c)%N && (c <=? 32)%N).

(** [str.lower] on an ASCII character. *)
Definition ascii_lower (c : char) : char :=
  if (65 <=? c)%N && (c <=? 90)%N then (c + 32)%N else c.

(** The character tables of the Unicode database that the Python library
    consults: which characters [\d] matches, which characters
    [str.strip()] removes, and what [str.lower()] returns.  The tables are
    not part of the repository; they are a parameter, known on the ASCII
    range, where they are the same in every version of the library. *)
Class Unicode : Type := {
  is_digit : char -> bool;
  is_space : char -> bool;
  lower : str -> str;
  is_digit_ascii : forall c, is_ascii c -> is_digit c = ascii_digit c;
  is_space_ascii : forall c, is_ascii c -> is_space c = ascii_space c;
  lower_ascii : forall s, Forall is_ascii s -> lower s = map ascii_lower s;
  lower_nil : forall s, lower s = [] -> s = []
}.

Section Strings.

Context `{Unicode}.

Fixpoint lstrip (s : str) : str :=
  match s with
  | c :: s' => if is_space c then lstrip s' else s
  | [] => []
  end.

Definition rstrip (s : str) : str := rev (lstrip (rev s)).

(** [str.strip()] *)
Definition strip (s : str) : str := rstrip (lstrip s).

End Strings.

(** [s == t] *)
Fixpoint eqb (s t : str) : bool :=
  match s, t with
  | [], [] => true
  | a :: s', b :: t' => N.eqb a b && eqb s' t'
  | _, _ => false
  end.

(** [s.startswith(p)] *)
Fixpoint startswith (p s : str) : bool :=
  match p, s with
  | [], _ => true
  | _ :: _, [] => false
  | a :: p', b :: s' => N.eqb a b && startswith p' s'
  end.

(** [needle in hay] *)
Fixpoint contains (needle hay : str) : bool :=
  startswith needle hay ||
  match hay with
  | [] => false
  | _ :: hay' => contains needle hay'
  end.

(** [any(f(x) for x in l)] *)
Definition any {A} (f : A -> bool) (l : list A) : bool := existsb f l.

(** [str(n)] for a non-negative integer. *)
Definition of_nat (n : nat) : str :=
  lit (NilEmpty.string_of_uint (Nat.to_uint n)).

End PyStr.
Export PyStr.

(** The tables cut down to the ASCII range: every other character is
    neither a digit nor whitespace and is its own lower case.  They stand
    for the library's tables in the worked examples, whose strings are
    ASCII. *)
Definition ascii_only : Unicode.
Proof.
  refine {| is_digit := ascii_digit; is_space := ascii_space; lower := map ascii_lower |}.
  - reflexivity.
  - reflexivity.
  - reflexivity.
  - intros s. apply map_eq_nil.
Defined.

(** [s] is an ASCII string. *)
Definition all_ascii (s : str) : bool := forallb (fun c => (c <? 128)%N) s.

(** ** Helper: [format_mobile_number] (app.py, lines 30-45) *)

(** The argument is the [mobile] string of a customer record; the empty
    string stands for every falsy value ([not mobile]). *)
Definition format_mobile_number `{Unicode} (mobile : str) : str :=
  match mobile with
  | [] => lit ""
  | _ =>
    let cleaned := List.filter is_digit mobile in
    let cleaned := if startswith (lit "0") cleaned then tl cleaned else cleaned in
    if negb (startswith (lit "91") cleaned) && (length cleaned =? 10)%nat
    then lit "+91" ++ cleaned
    else if (length cleaned =? 12)%nat && startswith (lit "91") cleaned
    then lit "+" ++ cleaned
    else mobile
  end.

(** ** The remote service *)

(** The outcome of one [models.execute_kw] call: a returned value, or an
    exception raised by the transport or the server. *)
Inductive rpc (A : Type) : Type :=
| Returned (a : A)
| Raised.
Arguments Returned {A} a.
Arguments Raised {A}.

(** ** TerminalResolver: [fetch_pos_configs] (app.py, lines 67-117) *)

Definition BRANCH_KEYWORDS : list (str * list str) :=
  [ (lit "CBE", [lit "CB"; lit "CBE"]);
    (lit "TN", [lit "TN"]);
    (lit "MLM", [lit "MLM"]);
    (lit "HYD", [lit "HYD"]);
    (lit "JYR", [lit "JYR"]);
    (lit "Vizag", [lit "Vizag"; lit "VZG"]);
    (lit "Saree Trails", [lit "PUNE"]) ].

(** [d.get(k)] on a dictionary literal with string keys. *)
Fixpoint dict_get {V : Type} (k : str) (d : list (str * V)) : option V :=
  match d with
  | [] => None
  | (k', v) :: d' => if PyStr.eqb k k' then Some v else dict_get k d'
  end.

(** [BRANCH_KEYWORDS.get(branch_name, [branch_name])] *)
Definition branch_keywords (branch_name : str) : list str :=
  match dict_get branch_name BRANCH_KEYWORDS with
  | Some kws => kws
  | None => [branch_name]
  end.

Record pos_config : Type := { cfg_id : Z; cfg_name : str }.

(** One element of the list returned by [search_read]. *)
Inductive config_item : Type :=
| ConfigNotDict
| Config (c : pos_config).

(** [f' {kw.lower()} ' in f' {name} '] *)
Definition token_in `{Unicode} (name kw : str) : bool :=
  contains (lit " " ++ lower kw ++ lit " ") (lit " " ++ name ++ lit " ").

(** The body of the filtering loop for one dictionary, [name] being
    [config.get('name', '').strip().lower()]. *)
Definition keep_config `{Unicode} (branch_name : str) (keywords : list str) (name : str)
  : bool :=
  match name with
  | [] => false
  | _ =>
    if contains (lit "local expo") name && PyStr.eqb branch_name (lit "Saree Trails")
    then any (token_in name) keywords
    else
      let starts_with_keyword := any (fun kw => startswith (lower kw) name) keywords in
      let contains_keyword := any (token_in name) keywords in
      starts_with_keyword || contains_keyword
  end.

(** The client-side decision about one fetched terminal name. *)
Definition accepts `{Unicode} (branch_name : str) (raw_name : str) : bool :=
  keep_config branch_name (branch_keywords branch_name) (lower (strip raw_name)).

Definition filter_configs `{Unicode} (branch_name : str) (configs : list config_item)
  : list pos_config :=
  flat_map (fun item =>
    match item with
    | ConfigNotDict => []
    | Config c => if accepts branch_name (cfg_name c) then [c] else []
    end) configs.

(** [reply] is the outcome of the [search_read] call. *)
Definition fetch_pos_configs `{Unicode} (reply : rpc (list config_item)) (branch_name : str)
  : list pos_config :=
  match reply with
  | Raised => []
  | Returned configs => filter_configs branch_name configs
  end.

(** ** BatchFetcher *)

(** *** [fetch_order_ids] (app.py, lines 119-149) *)

(** The state of the [while True] loop; [pages] logs, oldest first, every
    page a [search] call has returned so far. *)
Record scan_state : Type := {
  order_ids : list Z;
  offset : nat;
  pages : list (list Z)
}.

(** [search offset limit] is the outcome of the [search] call with these
    options.  The loop has no bound of its own: [fuel] bounds the number of
    iterations and [None] means that it was exhausted. *)
Fixpoint scan_loop (fuel : nat) (search : nat -> nat -> rpc (list Z)) (limit : nat)
    (st : scan_state) : option (rpc scan_state) :=
  match fuel with
  | O => None
  | S fuel' =>
    match search (offset st) limit with
    | Raised => Some Raised
    | Returned batch =>
      let seen := pages st ++ [batch] in
      match batch with
      | [] => Some (Returned {| order_ids := order_ids st; offset := offset st; pages := seen |})
      | _ :: _ =>
        scan_loop fuel' search limit
          {| order_ids := order_ids st ++ batch;
             offset := offset st + length batch;
             pages := seen |}
      end
    end
  end.

Definition scan_start : scan_state := {| order_ids := []; offset := 0; pages := [] |}.

(** The result of [fetch_order_ids]; the [except] branch returns []. *)
Definition fetch_order_ids (fuel : nat) (search : nat -> nat -> rpc (list Z)) (limit : nat)
  : option (list Z) :=
  match scan_loop fuel search limit scan_start with
  | None => None
  | Some Raised => Some []
  | Some (Returned st) => Some (order_ids st)
  end.

(** The pages received by a run that ends normally. *)
Definition search_pages (fuel : nat) (search : nat -> nat -> rpc (list Z)) (limit : nat)
  : option (list (list Z)) :=
  match scan_loop fuel search limit scan_start with
  | Some (Returned st) => Some (pages st)
  | _ => None
  end.

(** A remote service that answers every offset/limit query from one fixed
    list of ids: [ids[offset:offset+limit]]. *)
Definition consistent_search (db : list Z) (offset limit : nat) : rpc (list Z) :=
  Returned (firstn limit (skipn offset db)).

(** *** Reference fields and transactions *)

(** A Python value for which [isinstance(v, int)] holds: an [int] or a
    [bool] ([bool] is a subclass of [int]). *)
Inductive scalar : Type :=
| SBool (b : bool)
| SInt (z : Z).

(** The integer a scalar equals and hashes as ([True == 1], [False == 0]):
    the key under which a dictionary stores it. *)
Definition key_of (v : scalar) : Z :=
  match v with
  | SBool true => 1
  | SBool false => 0
  | SInt z => z
  end.

(** A [partner_id] or [config_id] field as [order.get] returns it. *)
Inductive ref_field : Type :=
| RefNone                              (* key absent, None, or any value that is neither a list nor an int *)
| RefEmptyList                         (* [] *)
| RefPair (id : scalar) (label : str)  (* [id, label] *)
| RefInt (v : scalar).                 (* a bare int, or a bool *)

(** The three-way [isinstance] test that every consumer repeats.  [None]
    is Python's [None]. *)
Definition resolve_ref (field : ref_field) : option scalar :=
  match field with
  | RefPair id _ => Some id
  | RefEmptyList => None
  | RefInt v => Some v
  | RefNone => None
  end.

(** Truthiness of a resolved id: [if partner_id:]. *)
Definition truthy (id : option scalar) : bool :=
  match id with
  | None => false
  | Some v => negb (key_of v =? 0)%Z
  end.

(** The [date_order] field as [order.get('date_order', '')] returns it. *)
Inductive date_field : Type :=
| DateAbsent                (* key absent: the default '' *)
| DateNotStr                (* False, None, a number: strptime raises TypeError *)
| DateStr (s : str).

Record order : Type := {
  partner_id : ref_field;
  config_id : ref_field;
  amount_total : option float;  (* None: key absent *)
  date_order : date_field;
  pos_reference : str
}.

(** One element of the list [orders]. *)
Inductive order_item : Type :=
| NotDict
| Dict (o : order).

(** [order.get('amount_total', 0)]: the remote service sends amounts as
    doubles; the default 0 is the number zero. *)
Definition amount (o : order) : float :=
  match amount_total o with
  | Some a => a
  | None => 0%float
  end.

(** [float(n)] for the length of a list, which is below 2^63. *)
Definition float_of_nat (n : nat) : float :=
  PrimFloat.of_uint63 (Uint63Axioms.of_Z (Z.of_nat n)).

(** *** [fetch_order_details] (app.py, lines 151-174) *)

(** What a [read] call gives back when it does not raise. *)
Inductive read_value (A : Type) : Type :=
| Records (l : list A)
| NotAList.
Arguments Records {A} l.
Arguments NotAList {A}.

(** [range(0, n, step)] for [step > 0]. *)
Definition range_step (n step : nat) : list nat :=
  map (fun k => k * step) (seq 0 ((n + step - 1) / step)).

(** [ids[i:i+size]] *)
Definition slice (ids : list Z) (i size : nat) : list Z := firstn size (skipn i ids).

(** One iteration of a chunked read loop; [None] is a raised exception,
    which leaves the loop. *)
Definition read_step {A : Type} (read : list Z -> rpc (read_value A)) (size : nat)
    (ids : list Z) (acc : option (list A)) (i : nat) : option (list A) :=
  match acc with
  | None => None
  | Some got =>
    match read (slice ids i size) with
    | Raised => None
    | Returned (Records (r :: batch)) => Some (got ++ r :: batch)
    | Returned _ => Some got            (* falsy or not a list: nothing is added *)
    end
  end.

(** The [for i in range(0, len(ids), size)] loop; [range] raises
    [ValueError] when the step is 0. *)
Definition read_in_batches {A : Type} (read : list Z -> rpc (read_value A)) (size : nat)
    (ids : list Z) : option (list A) :=
  match size with
  | O => None
  | S _ => fold_left (read_step read size ids) (range_step (length ids) size) (Some [])
  end.

(** [read ids] is the outcome of the [read] call for the chunk [ids]; the
    [except] branch returns []. *)
Definition fetch_order_details (read : list Z -> rpc (read_value order_item))
    (read_batch_size : nat) (order_ids : list Z) : list order_item :=
  match read_in_batches read read_batch_size order_ids with
  | Some orders => orders
  | None => []
  end.

(** The chunks the loop asks for, in order. *)
Definition chunks (size : nat) (ids : list Z) : list (list Z) :=
  map (fun i => slice ids i size) (range_step (length ids) size).

(** ** EntityJoiner: [fetch_related_data] (app.py, lines 176-234) *)

(** A character field of a record as [read] returns it: the remote service
    encodes an unset field as False. *)
Inductive char_field : Type :=
| Str (s : str)
| Unset.

(** A [res.partner] record as [read] returns it. *)
Record partner : Type := {
  p_id : Z;
  p_name : char_field;
  p_mobile : char_field;
  p_email : char_field
}.

(** A [pos.config] record as [read] returns it. *)
Record terminal : Type := { t_id : Z; t_name : char_field }.

(** [format_mobile_number] on a field value: [not mobile] maps False to ''. *)
Definition format_mobile_field `{Unicode} (m : char_field) : char_field :=
  match m with
  | Str s => Str (format_mobile_number s)
  | Unset => Str (lit "")
  end.

(** The ids one order appends to [partner_ids] (resp. [config_ids]). *)
Definition ids_of_item (field : order -> ref_field) (item : order_item) : list Z :=
  match item with
  | NotDict => []
  | Dict o =>
    match resolve_ref (field o) with
    | Some v => if truthy (Some v) then [key_of v] else []
    | None => []
    end
  end.

(** [partner_ids] and [config_ids] at the end of the first loop. *)
Definition collect_ids (field : order -> ref_field) (orders : list order_item) : list Z :=
  flat_map (ids_of_item field) orders.

(** [list(set(ids))]: the order of the elements is the set's own. *)
Definition unique_ids (ids : list Z) : list Z :=
  elements (list_to_set ids : gset Z).

(** [{p['id']: p for p in partners}] *)
Definition index_by {A : Type} (key : A -> Z) (l : list A) : gmap Z A :=
  fold_left (fun d r => <[key r := r]> d) l ∅.

Definition fetch_related_data `{Unicode}
    (read_partners : list Z -> rpc (read_value partner))
    (read_configs : list Z -> rpc (read_value terminal))
    (read_batch_size : nat) (orders : list order_item)
  : gmap Z partner * gmap Z terminal :=
  let partner_ids := unique_ids (collect_ids partner_id orders) in
  let config_ids := unique_ids (collect_ids config_id orders) in
  let partners :=
    match partner_ids with
    | [] => Some []
    | _ => read_in_batches read_partners read_batch_size partner_ids
    end in
  let configs :=
    match config_ids with
    | [] => Some []
    | _ =>
      match read_configs config_ids with
      | Raised => None
      | Returned (Records l) => Some l
      | Returned NotAList => Some []
      end
    end in
  match partners, configs with
  | Some partners, Some configs =>
    let partners :=
      map (fun p => {| p_id := p_id p; p_name := p_name p;
                       p_mobile := format_mobile_field (p_mobile p);
                       p_email := p_email p |}) partners in
    (index_by p_id partners, index_by t_id configs)
  | _, _ => (∅, ∅)
  end.

(** ** Aggregator and ReportRenderer: [generate_excel] (app.py, lines 236-419) *)

(** A value written to a worksheet cell. *)
Inductive cell : Type :=
| Text (s : str)
| Number (z : Z)
| Flag (b : bool).

(** The empty string ''. *)
Definition blank : cell := Text [].

Definition cell_of_field (f : char_field) : cell :=
  match f with
  | Str s => Text s
  | Unset => Flag false
  end.

Definition cell_of_scalar (v : scalar) : cell :=
  match v with
  | SBool b => Flag b
  | SInt z => Number z
  end.

(** [d.get(id, {}) if id else {}]; [None] is the empty dictionary. *)
Definition lookup_ref {R : Type} (d : gmap Z R) (id : option scalar) : option R :=
  match id with
  | Some v => if truthy id then d !! key_of v else None
  | None => None
  end.

(** [r.get(field, '')] *)
Definition get_field {R : Type} (field : R -> char_field) (r : option R) : cell :=
  match r with
  | Some r => cell_of_field (field r)
  | None => blank
  end.

(** [id or ""] *)
Definition id_or_blank (id : option scalar) : cell :=
  match id with
  | Some v => if truthy id then cell_of_scalar v else blank
  | None => blank
  end.

Record date : Type := { year : Z; month : Z; day : Z }.

Record datetime : Type := { on : date; hour : Z; minute : Z; second : Z }.

#[global] Instance date_eq_dec : EqDecision date.
Proof. solve_decision. Defined.

(** Comparison of dates: by year, then month, then day. *)
Definition date_ltb (a b : date) : bool :=
  (year a <? year b)%Z
  || ((year a =? year b)%Z
      && ((month a <? month b)%Z
          || ((month a =? month b)%Z && (day a <? day b)%Z))).

(** [sorted(keys)], as an insertion sort: the keys of a dictionary are
    distinct, so every sorting algorithm returns the same list. *)
Fixpoint insert_date (x : date) (l : list date) : list date :=
  match l with
  | [] => [x]
  | y :: l' => if date_ltb x y then x :: l else y :: insert_date x l'
  end.

Definition sorted (l : list date) : list date := fold_right insert_date [] l.

(** A [defaultdict]: an association list in insertion order.
    [dd_update default k f d] is [d[k] = f(d[k])], creating the entry from
    [default] at the end when [k] is new. *)
Fixpoint dd_update {K V : Type} `{EqDecision K} (default : V) (k : K) (f : V -> V)
    (d : list (K * V)) : list (K * V) :=
  match d with
  | [] => [(k, f default)]
  | (k', v) :: d' =>
    if decide (k = k') then (k', f v) :: d' else (k', v) :: dd_update default k f d'
  end.

(** [d[k]] on a [defaultdict]. *)
Fixpoint dd_get {K V : Type} `{EqDecision K} (default : V) (k : K) (d : list (K * V)) : V :=
  match d with
  | [] => default
  | (k', v) :: d' => if decide (k = k') then v else dd_get default k d'
  end.

Record formula_cell : Type := { f_row : nat; f_col : nat; f_text : str }.

(** *** Order Details sheet *)

Record detail_row : Type := {
  dr_row : nat;
  dr_date : option datetime;      (* None: datetime.now() *)
  dr_reference : str;
  dr_terminal : cell;
  dr_customer_id : cell;
  dr_customer_name : cell;
  dr_mobile : cell;
  dr_email : cell;
  dr_amount : float;
  dr_config_id : cell
}.

(** *** Customer Summary sheet *)

Record customer_entry : Type := {
  c_name : cell;
  c_mobile : cell;
  c_email : cell;
  c_count : nat;
  c_total : float
}.

(** [{"name": "", "mobile": "", "email": "", "count": 0, "total": 0.0}] *)
Definition customer_default : customer_entry :=
  {| c_name := blank; c_mobile := blank; c_email := blank; c_count := 0; c_total := 0%float |}.

(** One iteration of the loop over [orders] that fills [customer_data]. *)
Definition customer_step (partner_dict : gmap Z partner)
    (customer_data : list (Z * customer_entry)) (item : order_item)
  : list (Z * customer_entry) :=
  match item with
  | NotDict => customer_data
  | Dict o =>
    let partner_id := resolve_ref (partner_id o) in
    let partner := lookup_ref partner_dict partner_id in
    match partner_id with
    | Some v =>
      if truthy partner_id then
        dd_update customer_default (key_of v)
          (fun e => {| c_name := get_field p_name partner;
                       c_mobile := get_field p_mobile partner;
                       c_email := get_field p_email partner;
                       c_count := c_count e + 1;
                       c_total := (c_total e + amount o)%float |})
          customer_data
      else customer_data
    | None => customer_data
    end
  end.

Definition customer_data (partner_dict : gmap Z partner) (orders : list order_item)
  : list (Z * customer_entry) :=
  fold_left (customer_step partner_dict) orders [].

(** [data['total'] / data['count'] if data['count'] > 0 else 0] *)
Definition avg_amount (e : customer_entry) : float :=
  if (0 <? c_count e)%nat
  then (c_total e / float_of_nat (c_count e))%float
  else 0%float.

Record summary_row : Type := {
  sr_row : nat;
  sr_customer_id : Z;
  sr_entry : customer_entry;
  sr_avg : float
}.

(** [enumerate(l, start)] *)
Definition enumerate {A : Type} (l : list A) (start : nat) : list (nat * A) :=
  combine (seq start (length l)) l.

Definition summary_rows (data : list (Z * customer_entry)) : list summary_row :=
  map (fun '(row_idx, (partner_id, e)) =>
         {| sr_row := row_idx; sr_customer_id := partner_id;
            sr_entry := e; sr_avg := avg_amount e |})
      (enumerate data 4).

(** The two formulas of the TOTAL row (columns E and F). *)
Definition summary_totals (data : list (Z * customer_entry)) : formula_cell * formula_cell :=
  let last_row := length data + 4 in
  ({| f_row := last_row; f_col := 4;
      f_text := lit "=SUM('Customer Summary'!E5:E" ++ of_nat last_row ++ lit ")" |},
   {| f_row := last_row; f_col := 5;
      f_text := lit "=SUM('Customer Summary'!F5:F" ++ of_nat last_row ++ lit ")" |}).

(** *** Sales Analysis sheet *)

Record day_entry : Type := { d_count : nat; d_total : float }.

(** [{"count": 0, "total": 0.0}] *)
Definition day_default : day_entry := {| d_count := 0; d_total := 0%float |}.

(** [data['total'] / data['count'] if data['count'] > 0 else 0] *)
Definition avg_value (e : day_entry) : float :=
  if (0 <? d_count e)%nat
  then (d_total e / float_of_nat (d_count e))%float
  else 0%float.

Record analysis_row : Type := {
  ar_row : nat;
  ar_date : date;
  ar_entry : day_entry;
  ar_avg : float
}.

(** The cell ranges the combined chart is bound to. *)
Record chart : Type := { categories : str; revenue_values : str; average_values : str }.

Record workbook : Type := {
  detail : list detail_row;
  detail_formula : formula_cell;
  summary : list summary_row;
  summary_formulas : formula_cell * formula_cell;
  analysis : list analysis_row;
  analysis_chart : option chart
}.

Section GenerateExcel.

(** [datetime.strptime(s, "%Y-%m-%d %H:%M:%S")] of the Python library:
    [None] when it raises [ValueError]. *)
Variable strptime : str -> option datetime.

(** [datetime.strptime(order.get('date_order', ''), ...)] under
    [except (ValueError, TypeError)]. *)
Definition parse_date_order (o : order) : option datetime :=
  match date_order o with
  | DateStr s => strptime s
  | DateAbsent => strptime (lit "")
  | DateNotStr => None
  end.

Variable partner_dict : gmap Z partner.
Variable config_dict : gmap Z terminal.

(** The cells written for one order of the first loop. *)
Definition write_detail_row (row_num : nat) (o : order) : detail_row :=
  let partner_id := resolve_ref (partner_id o) in
  let partner := lookup_ref partner_dict partner_id in
  let config_id := resolve_ref (config_id o) in
  let config := lookup_ref config_dict config_id in
  {| dr_row := row_num;
     dr_date := parse_date_order o;
     dr_reference := pos_reference o;
     dr_terminal := get_field t_name config;
     dr_customer_id := id_or_blank partner_id;
     dr_customer_name := get_field p_name partner;
     dr_mobile := get_field p_mobile partner;
     dr_email := get_field p_email partner;
     dr_amount := amount o;
     dr_config_id := id_or_blank config_id |}.

(** [for row_num, order in enumerate(orders, 4)] *)
Definition detail_rows (orders : list order_item) : list detail_row :=
  flat_map (fun '(row_num, item) =>
              match item with
              | NotDict => []
              | Dict o => [write_detail_row row_num o]
              end)
           (enumerate orders 4).

Definition detail_total (orders : list order_item) : formula_cell :=
  let last_row := length orders + 4 in
  {| f_row := last_row; f_col := 7;
     f_text := lit "=SUM('Order Details'!H5:H" ++ of_nat last_row ++ lit ")" |}.

(** One iteration of the loop over [orders] that fills [date_data]. *)
Definition date_step (date_data : list (date * day_entry)) (item : order_item)
  : list (date * day_entry) :=
  match item with
  | NotDict => date_data
  | Dict o =>
    match parse_date_order o with
    | Some date_obj =>
      dd_update day_default (on date_obj)
        (fun e => {| d_count := d_count e + 1; d_total := (d_total e + amount o)%float |})
        date_data
    | None => date_data
    end
  end.

Definition date_data (orders : list order_item) : list (date * day_entry) :=
  fold_left date_step orders [].

Definition sorted_dates (orders : list order_item) : list date :=
  sorted (map fst (date_data orders)).

Definition analysis_rows (orders : list order_item) : list analysis_row :=
  map (fun '(row_idx, date) =>
         let data := dd_get day_default date (date_data orders) in
         {| ar_row := row_idx; ar_date := date; ar_entry := data; ar_avg := avg_value data |})
      (enumerate (sorted_dates orders) 4).

Definition analysis_chart_of (orders : list order_item) : option chart :=
  match sorted_dates orders with
  | [] => None
  | _ :: _ =>
    let last := of_nat (length (sorted_dates orders) + 4) in
    Some {| categories := lit "='Sales Analysis'!$A$5:$A$" ++ last;
            revenue_values := lit "='Sales Analysis'!$C$5:$C$" ++ last;
            average_values := lit "='Sales Analysis'!$D$5:$D$" ++ last |}
  end.

Definition generate_excel (orders : list order_item) : workbook :=
  {| detail := detail_rows orders;
     detail_formula := detail_total orders;
     summary := summary_rows (customer_data partner_dict orders);
     summary_formulas := summary_totals (customer_data partner_dict orders);
     analysis := analysis_rows orders;
     analysis_chart := analysis_chart_of orders |}.

End GenerateExcel.

(** ** A1 notation *)

(** The text of a sum over one column of a sheet, from the cell in row
    [first] to the cell in row [last] (rows counted from 1, as a
    spreadsheet shows them). *)
Definition sum_formula (sheet column : str) (first last : nat) : str :=
  lit "=SUM('" ++ sheet ++ lit "'!" ++ column ++ of_nat first
    ++ lit ":" ++ column ++ of_nat last ++ lit ")".

(** The spreadsheet row of a worksheet row index (indices count from 0). *)
Definition sheet_row (index : nat) : nat := index + 1.

(** The row index of the header row of every sheet: [write_row(3, 0, ...)]. *)
Definition header_row : nat := 3.

(** ** AnalyticsView: the table of [create_analytics_dashboard]
    (app.py, lines 421-458) *)

Record df_row : Type := {
  df_date : date;
  df_datetime : datetime;
  df_amount : float;
  df_customer : cell;
  df_terminal : cell;
  df_has_customer : bool
}.

(** [d.get(id, {}).get('name', 'Unknown') if id else absent] *)
Definition name_or {R : Type} (d : gmap Z R) (field : R -> char_field)
    (id : option scalar) (absent : str) : cell :=
  match id with
  | Some v =>
    if truthy id then
      match d !! key_of v with
      | Some r => cell_of_field (field r)
      | None => Text (lit "Unknown")
      end
    else Text absent
  | None => Text absent
  end.

(** [bool(partner_id)] and the loop that fills [df_data].  The timestamp is
    read with [order['date_order']]: a missing key raises [KeyError], which
    the [except (ValueError, TypeError)] of the loop does not catch; [None]
    is that exception leaving the function. *)
Definition dashboard_step (strptime : str -> option datetime)
    (partner_dict : gmap Z partner) (config_dict : gmap Z terminal)
    (df_data : option (list df_row)) (item : order_item) : option (list df_row) :=
  match df_data with
  | None => None
  | Some rows =>
    match item with
    | NotDict => Some rows
    | Dict o =>
      let partner_id := resolve_ref (partner_id o) in
      let config_id := resolve_ref (config_id o) in
      match date_order o with
      | DateAbsent => None
      | DateNotStr => Some rows
      | DateStr s =>
        match strptime s with
        | Some order_date =>
          Some (rows ++ [{| df_date := on order_date;
                            df_datetime := order_date;
                            df_amount := amount o;
                            df_customer := name_or partner_dict p_name partner_id
                                             (lit "Walk-in Customer");
                            df_terminal := name_or config_dict t_name config_id
                                             (lit "Unknown");
                            df_has_customer := truthy partner_id |}])
        | None => Some rows
        end
      end
    end
  end.

(** [df_data] when the loop ends; the dashboard is drawn from it when it is
    not empty. *)
Definition dashboard_rows (strptime : str -> option datetime)
    (partner_dict : gmap Z partner) (config_dict : gmap Z terminal)
    (orders : list order_item) : option (list df_row) :=
  fold_left (dashboard_step strptime partner_dict config_dict) orders (Some []).

(** ** The report of [main] (app.py, lines 812-861) *)

(** A [partner_id] or [config_id] field as the dictionary holds it, the key
    being absent told apart from the value None. *)
Inductive raw_ref : Type :=
| RawAbsent
| RawNull
| RawEmptyList
| RawPair (id : scalar) (label : str)
| RawInt (v : scalar).

(** What [order.get(field)] gives the three-way [isinstance] test. *)
Definition ref_of_raw (f : raw_ref) : ref_field :=
  match f with
  | RawAbsent | RawNull => RefNone
  | RawEmptyList => RefEmptyList
  | RawPair id label => RefPair id label
  | RawInt v => RefInt v
  end.

(** An order dictionary as [read] returns it; [None] is an absent key. *)
Record raw_order : Type := {
  raw_partner_id : raw_ref;
  raw_config_id : raw_ref;
  raw_amount_total : option float;
  raw_date_order : date_field;
  raw_pos_reference : option str
}.

Inductive raw_item : Type :=
| RawNotDict
| RawDict (o : raw_order).

(** The order as the functions that read it with [order.get] see it. *)
Definition order_of_raw (o : raw_order) : order :=
  {| partner_id := ref_of_raw (raw_partner_id o);
     config_id := ref_of_raw (raw_config_id o);
     amount_total := raw_amount_total o;
     date_order := raw_date_order o;
     pos_reference := match raw_pos_reference o with Some s => s | None => lit "" end |}.

Definition item_of_raw (item : raw_item) : order_item :=
  match item with
  | RawNotDict => NotDict
  | RawDict o => Dict (order_of_raw o)
  end.

(** [o.get(field, [None])[0]]: [None] is an exception ([TypeError] for None,
    an int or a bool, [IndexError] for []), [Some None] is the value None. *)
Definition first_of_ref (f : raw_ref) : option (option scalar) :=
  match f with
  | RawAbsent => Some None
  | RawPair id _ => Some (Some id)
  | RawNull | RawEmptyList | RawInt _ => None
  end.

(** [d.get(id, {})] for an id that may be None. *)
Definition get_record {R : Type} (d : gmap Z R) (id : option scalar) : option R :=
  match id with
  | Some v => d !! key_of v
  | None => None
  end.

(** [r.get(field, default)] *)
Definition get_field_or {R : Type} (field : R -> char_field) (r : option R)
    (default : str) : cell :=
  match r with
  | Some r => cell_of_field (field r)
  | None => Text default
  end.

Record preview_row : Type := {
  pv_date : str;
  pv_reference : str;
  pv_terminal : cell;
  pv_customer : cell;
  pv_mobile : cell;
  pv_amount : float
}.

(** One element of [preview_data]; [None] is an exception. *)
Definition preview_of (partner_dict : gmap Z partner) (config_dict : gmap Z terminal)
    (item : raw_item) : option preview_row :=
  match item with
  | RawNotDict => None
  | RawDict o =>
    match first_of_ref (raw_partner_id o), first_of_ref (raw_config_id o),
          raw_date_order o, raw_pos_reference o, raw_amount_total o with
    | Some partner_id, Some config_id, DateStr date, Some reference, Some amount_total =>
      let partner := get_record partner_dict partner_id in
      let config := get_record config_dict config_id in
      Some {| pv_date := firstn 10 date;
              pv_reference := reference;
              pv_terminal := get_field_or t_name config (lit "N/A");
              pv_customer := get_field_or p_name partner (lit "Walk-in Customer");
              pv_mobile := get_field_or p_mobile partner (lit "N/A");
              pv_amount := amount_total |}
    | _, _, _, _, _ => None
    end
  end.

(** [for o in orders[:10]] *)
Fixpoint preview_loop (partner_dict : gmap Z partner) (config_dict : gmap Z terminal)
    (items : list raw_item) : option (list preview_row) :=
  match items with
  | [] => Some []
  | item :: rest =>
    match preview_of partner_dict config_dict item with
    | None => None
    | Some row =>
      match preview_loop partner_dict config_dict rest with
      | None => None
      | Some rows => Some (row :: rows)
      end
    end
  end.

Definition preview_data (partner_dict : gmap Z partner) (config_dict : gmap Z terminal)
    (orders : list raw_item) : option (list preview_row) :=
  preview_loop partner_dict config_dict (firstn 10 orders).

(** Truthiness of [o.get('partner_id')]. *)
Definition raw_truthy (f : raw_ref) : bool :=
  match f with
  | RawPair _ _ => true
  | RawInt v => truthy (Some v)
  | RawAbsent | RawNull | RawEmptyList => false
  end.

Record statistics : Type := {
  total_amount : float;
  customers_with_data : nat;
  avg_order : float
}.

(** [order.get('amount_total', 0) for order in orders], the amounts handed
    to [sum]; [None] is the [AttributeError] of an element that is not a
    dictionary. *)
Fixpoint order_amounts (orders : list raw_item) : option (list float) :=
  match orders with
  | [] => Some []
  | RawNotDict :: _ => None
  | RawDict o :: rest =>
    match order_amounts rest with
    | Some amounts => Some (amount (order_of_raw o) :: amounts)
    | None => None
    end
  end.

(** The summary statistics under the download button.  [py_sum] is the
    builtin [sum] on a list of floats, whose way of adding them up depends
    on the version of the interpreter. *)
Definition summary_statistics (py_sum : list float -> float) (orders : list raw_item)
  : option statistics :=
  match order_amounts orders with
  | None => None
  | Some amounts =>
    let total := py_sum amounts in
    Some {| total_amount := total;
            customers_with_data :=
              length (List.filter
                        (fun item => match item with
                                     | RawDict o => raw_truthy (raw_partner_id o)
                                     | RawNotDict => false
                                     end) orders);
            avg_order := match orders with
                         | [] => 0%float
                         | _ => (total / float_of_nat (length orders))%float
                         end |}
  end.

(** What [main] does with the orders once they are fetched: the dashboard,
    the preview, the workbook, the statistics, in this order and inside one
    [try]; [None] is an exception, reported in place of the report.  The
    drawing calls of the libraries are taken not to raise. *)
Definition report (strptime : str -> option datetime) (py_sum : list float -> float)
    (partner_dict : gmap Z partner) (config_dict : gmap Z terminal)
    (orders : list raw_item) : option (workbook * statistics) :=
  match dashboard_rows strptime partner_dict config_dict (map item_of_raw orders) with
  | None => None
  | Some _ =>
    match preview_data partner_dict config_dict orders with
    | None => None
    | Some _ =>
      let excel_file :=
        generate_excel strptime partner_dict config_dict (map item_of_raw orders) in
      match summary_statistics py_sum orders with
      | None => None
      | Some stats => Some (excel_file, stats)
      end
    end
  end.

(** ** Vocabulary of the specification *)

(** [kw] is a prefix of [name]. *)
Definition starts_with (kw name : str) : Prop :=
  exists rest, name = kw ++ rest.

(** [phrase] occurs somewhere in [name]. *)
Definition occurs_in (phrase name : str) : Prop :=
  exists before after, name = before ++ phrase ++ after.

(** [kw] occurs in [name] as a token of its own: what precedes it is
    nothing or ends with a space, what follows it is nothing or starts with
    a space. *)
Definition standalone_token (kw name : str) : Prop :=
  exists before after,
    name = before ++ kw ++ after
    /\ (before = [] \/ exists b, before = b ++ lit " ")
    /\ (after = [] \/ exists a, after = lit " " ++ a).

(** [name] is [raw] without its leading and trailing whitespace: [raw] is
    [name] between two runs of whitespace, and [name] neither starts nor
    ends with a whitespace character. *)
Definition whitespace `{Unicode} (s : str) : Prop := Forall (fun c => is_space c = true) s.

Definition space_at_start `{Unicode} (s : str) : Prop :=
  exists c rest, s = c :: rest /\ is_space c = true.

Definition space_at_end `{Unicode} (s : str) : Prop :=
  exists front c, s = front ++ [c] /\ is_space c = true.

Definition trimmed_of `{Unicode} (raw name : str) : Prop :=
  (exists l r, raw = l ++ name ++ r /\ whitespace l /\ whitespace r)
  /\ ~ space_at_start name /\ ~ space_at_end name.

(** The branches of the keyword table (lines 67-75). *)
Definition listed_branches : list str :=
  [lit "CBE"; lit "TN"; lit "MLM"; lit "HYD"; lit "JYR"; lit "Vizag"; lit "Saree Trails"].

(** [kw] is a keyword of the branch: one the table gives for it, or the
    branch's own name when the table does not list the branch. *)
Inductive keyword_of : str -> str -> Prop :=
| keyword_CBE_CB : keyword_of (lit "CBE") (lit "CB")
| keyword_CBE_CBE : keyword_of (lit "CBE") (lit "CBE")
| keyword_TN : keyword_of (lit "TN") (lit "TN")
| keyword_MLM : keyword_of (lit "MLM") (lit "MLM")
| keyword_HYD : keyword_of (lit "HYD") (lit "HYD")
| keyword_JYR : keyword_of (lit "JYR") (lit "JYR")
| keyword_Vizag_Vizag : keyword_of (lit "Vizag") (lit "Vizag")
| keyword_Vizag_VZG : keyword_of (lit "Vizag") (lit "VZG")
| keyword_Saree_Trails : keyword_of (lit "Saree Trails") (lit "PUNE")
| keyword_unlisted (branch : str) : ~ In branch listed_branches -> keyword_of branch branch.

(** The digits of a string, in order. *)
Definition digits_only `{Unicode} (s : str) : str := List.filter is_digit s.

(** A single leading "0" dropped. *)
Definition drop_leading_zero (s : str) : str :=
  match s with
  | c :: rest => if (c =? 48)%N then rest else s
  | [] => []
  end.

(** The orders proper of an order list. *)
Definition transactions (orders : list order_item) : list order :=
  flat_map (fun item => match item with Dict o => [o] | NotDict => [] end) orders.

(** The order has a resolved, non-null customer id. *)
Definition has_customer (o : order) : bool := truthy (resolve_ref (partner_id o)).

(** A total as the code accumulates it: [total = 0.0], then
    [total += a] for each amount in order. *)
Definition running_sum (amounts : list float) : float :=
  fold_left PrimFloat.add amounts 0%float.

(** The totals of the entries of the customer table, in the order of the
    table. *)
Definition customer_totals (entries : list (Z * customer_entry)) : list float :=
  map (fun kv => c_total (snd kv)) entries.

(** The orders counted over all the entries of the customer table. *)
Definition orders_counted (entries : list (Z * customer_entry)) : nat :=
  fold_right (fun kv s => c_count (snd kv) + s) 0 entries.

(** No search call follows a page shorter than the page size. *)
Definition no_call_after_short_page (limit : nat) (seen : list (list Z)) : Prop :=
  forall before page after,
    seen = before ++ page :: after -> length page < limit -> after = [].

(** The records a [read] call contributes to the accumulated list. *)
Definition records_of {A : Type} (reply : rpc (read_value A)) : list A :=
  match reply with
  | Returned (Records l) => l
  | _ => []
  end.

(** The key of the [customer_data] entry an order is added to, if any. *)
Definition customer_key (o : order) : option Z :=
  match resolve_ref (partner_id o) with
  | Some v => if truthy (Some v) then Some (key_of v) else None
  | None => None
  end.

(** The orders of customer [k], in the order of the list. *)
Definition orders_of_customer (k : Z) (orders : list order_item) : list order :=
  List.filter (fun o => bool_decide (customer_key o = Some k)) (transactions orders).

(** The day an order is counted under, if its timestamp parses. *)
Definition order_day (strptime : str -> option datetime) (o : order) : option date :=
  match parse_date_order strptime o with
  | Some date_obj => Some (on date_obj)
  | None => None
  end.

(** The timestamp of the order parses. *)
Definition parses (strptime : str -> option datetime) (o : order) : bool :=
  match parse_date_order strptime o with
  | Some _ => true
  | None => false
  end.

(** [a] is an earlier day than [b]. *)
Definition date_lt (a b : date) : Prop :=
  (year a < year b)%Z
  \/ (year a = year b
      /\ ((month a < month b)%Z \/ (month a = month b /\ (day a < day b)%Z))).

(** The sum of [count] over the rows of the Sales Analysis sheet. *)
Definition sum_order_counts (rows : list analysis_row) : nat :=
  fold_right (fun r s => d_count (ar_entry r) + s) 0 rows.

(** The keys of a list in the order of their first occurrence. *)
Fixpoint first_occurrences (l : list Z) : list Z :=
  match l with
  | [] => []
  | k :: l' => k :: List.filter (fun k' => negb (k' =? k)%Z) (first_occurrences l')
  end.

(** A [read] that answers every chunk with the records of its ids. *)
Definition read_all {A : Type} (record : Z -> A) (ids : list Z) : rpc (read_value A) :=
  Returned (Records (map record ids)).

(** A remote service that ignores the offset and always has one more id. *)
Definition endless_search (offset limit : nat) : rpc (list Z) := Returned [1%Z].

(** The preview can be built from this element of the order list. *)
Definition previewable (item : raw_item) : Prop :=
  exists o,
    item = RawDict o
    /\ (raw_partner_id o = RawAbsent \/ exists id label, raw_partner_id o = RawPair id label)
    /\ (raw_config_id o = RawAbsent \/ exists id label, raw_config_id o = RawPair id label)
    /\ (exists s, raw_date_order o = DateStr s)
    /\ raw_pos_reference o <> None
    /\ raw_amount_total o <> None.

(** ** Sample terminals *)

Definition terminal_named (id : Z) (name : str) : pos_config :=
  {| cfg_id := id; cfg_name := name |}.

(** A reply to the query for branch "TN": a name that holds the keyword
    inside a word, an element that is not a dictionary, a padded name, a
    name with the keyword as a token and a name that starts with it once
    the leading space is removed. *)
Definition tn_reply : list config_item :=
  [ Config (terminal_named 1 (lit "ANTENNA"));
    ConfigNotDict;
    Config (terminal_named 2 (lit "  TN Main "));
    Config (terminal_named 3 (lit "Shop tn 2"));
    Config (terminal_named 4 (lit " TNX")) ].

(** A reply to the query for branch "Saree Trails". *)
Definition saree_trails_reply : list config_item :=
  [ Config (terminal_named 5 (lit "PUNEX Local Expo"));
    Config (terminal_named 6 (lit "Local Expo Pune"));
    Config (terminal_named 7 (lit "Punex Main")) ].

(** U+00A0, the no-break space. *)
Definition no_break_space : char := 160%N.

(** ** Sample transactions *)

(** An order of customer [customer], as the remote service encodes it. *)
Definition customer_order (customer : Z) (amount : float) : order :=
  {| partner_id := RefPair (SInt customer) (lit "Customer");
     config_id := RefPair (SInt 3) (lit "CBE Main");
     amount_total := Some amount;
     date_order := DateStr (lit "2024-03-01 10:15:00");
     pos_reference := lit "Order 00001-001-0001" |}.

(** An order without a customer: the remote service sends False. *)
Definition walk_in_order (amount : float) : order :=
  {| partner_id := RefInt (SBool false);
     config_id := RefPair (SInt 3) (lit "CBE Main");
     amount_total := Some amount;
     date_order := DateStr (lit "2024-03-02 11:30:00");
     pos_reference := lit "Order 00001-001-0002" |}.

(** A parser that knows the timestamps of the two sample orders. *)
Definition sample_strptime (s : str) : option datetime :=
  if PyStr.eqb s (lit "2024-03-01 10:15:00")
  then Some {| on := {| year := 2024; month := 3; day := 1 |};
               hour := 10; minute := 15; second := 0 |}
  else if PyStr.eqb s (lit "2024-03-02 11:30:00")
  then Some {| on := {| year := 2024; month := 3; day := 2 |};
               hour := 11; minute := 30; second := 0 |}
  else None.

(** The two sample orders as dictionaries of the remote service. *)
Definition raw_customer_order (customer : Z) (amount : float) : raw_item :=
  RawDict {| raw_partner_id := RawPair (SInt customer) (lit "Customer");
             raw_config_id := RawPair (SInt 3) (lit "CBE Main");
             raw_amount_total := Some amount;
             raw_date_order := DateStr (lit "2024-03-01 10:15:00");
             raw_pos_reference := Some (lit "Order 00001-001-0001") |}.

Definition raw_walk_in_order (amount : float) : raw_item :=
  RawDict {| raw_partner_id := RawInt (SBool false);
             raw_config_id := RawPair (SInt 3) (lit "CBE Main");
             raw_amount_total := Some amount;
             raw_date_order := DateStr (lit "2024-03-02 11:30:00");
             raw_pos_reference := Some (lit "Order 00001-001-0002") |}.

(** A customer record with an unformatted mobile number. *)
Definition sample_partner (id : Z) : partner :=
  {| p_id := id; p_name := Str (lit "Customer"); p_mobile := Str (lit "098765 43210");
     p_email := Unset |}.

(** A [read] that answers the chunk [1, 2] and raises on every other one. *)
Definition read_first_chunk_only (ids : list Z) : rpc (read_value order_item) :=
  match ids with
  | [1%Z; 2%Z] =>
    Returned (Records [Dict (customer_order 8 100%float); Dict (walk_in_order 50%float)])
  | _ => Raised
  end.

(** * Properties *)

(** ** Strings *)

Section StringFacts.

Lemma eqb_true_iff (s t : str) : PyStr.eqb s t = true <-> s = t.
Proof.
  revert t; induction s as [|a s IH]; intros [|b t]; simpl; try (split; congruence).
  rewrite andb_true_iff, N.eqb_eq, IH.
  split; [intros [-> ->]; reflexivity | intros [= -> ->]; auto].
Qed.

Lemma startswith_iff (p s : str) : startswith p s = true <-> starts_with p s.
Proof.
  unfold starts_with. revert s; induction p as [|a p IH]; intros s; simpl.
  - split; [intros _; exists s; reflexivity | reflexivity].
  - destruct s as [|b s].
    + split; [discriminate | intros [r [=]]].
    + rewrite andb_true_iff, N.eqb_eq, IH. split.
      * intros [-> [r ->]]. exists r. reflexivity.
      * intros [r [= -> ->]]. split; [reflexivity | exists r; reflexivity].
Qed.

Lemma contains_iff (needle hay : str) : contains needle hay = true <-> occurs_in needle hay.
Proof.
  unfold occurs_in. induction hay as [|c hay IH].
  - simpl. rewrite orb_false_r, startswith_iff. split.
    + intros [r ->]. exists [], r. reflexivity.
    + intros (b & a & H). destruct b; [|discriminate]. exists a. exact H.
  - cbn [contains]. rewrite orb_true_iff, startswith_iff, IH. split.
    + intros [[r ->] | (b & a & ->)].
      * exists [], r. reflexivity.
      * exists (c :: b), a. reflexivity.
    + intros (b & a & H). destruct b as [|c' b].
      * left. exists a. exact H.
      * right. injection H as -> ->. exists b, a. reflexivity.
Qed.

Lemma startswith_zero (s : str) :
  (if startswith (lit "0") s then tl s else s) = drop_leading_zero s.
Proof.
  destruct s as [|c s]; [reflexivity|].
  change (startswith (lit "0") (c :: s)) with ((48 =? c)%N && true).
  rewrite andb_true_r, (N.eqb_sym 48 c). reflexivity.
Qed.

Lemma all_ascii_Forall (s : str) : all_ascii s = true -> Forall is_ascii s.
Proof.
  unfold all_ascii. rewrite forallb_forall. intros H. apply List.Forall_forall.
  intros c Hc. apply N.ltb_lt. now apply H.
Qed.

Lemma lstrip_Forall `{Unicode} (P : char -> Prop) (s : str) : Forall P s -> Forall P (lstrip s).
Proof.
  induction 1 as [|c s Hc Hs IH]; [constructor|]. simpl.
  destruct (is_space c); [exact IH | now constructor].
Qed.

Lemma strip_Forall `{Unicode} (P : char -> Prop) (s : str) : Forall P s -> Forall P (strip s).
Proof.
  intros Hs. unfold strip, rstrip.
  apply Forall_rev, lstrip_Forall, Forall_rev, lstrip_Forall, Hs.
Qed.

Context `{Unicode}.

(** On ASCII strings every table gives what the ASCII table gives. *)
Lemma lstrip_ascii (s : str) : Forall is_ascii s -> lstrip s = @lstrip ascii_only s.
Proof.
  induction 1 as [|c s Hc _ IH]; [reflexivity|]. simpl.
  rewrite (is_space_ascii c Hc). change (@is_space ascii_only c) with (ascii_space c).
  destruct (ascii_space c); [exact IH | reflexivity].
Qed.

Lemma strip_ascii (s : str) : Forall is_ascii s -> strip s = @strip ascii_only s.
Proof.
  intros Hs. unfold strip, rstrip. rewrite (lstrip_ascii s Hs).
  rewrite lstrip_ascii; [reflexivity|].
  apply Forall_rev. apply (@lstrip_Forall ascii_only). exact Hs.
Qed.

Lemma lower_strip_ascii (s : str) :
  Forall is_ascii s -> lower (strip s) = @lower ascii_only (@strip ascii_only s).
Proof.
  intros Hs. rewrite lower_ascii by now apply strip_Forall.
  now rewrite strip_ascii.
Qed.

Lemma digits_only_ascii (s : str) :
  Forall is_ascii s -> digits_only s = @digits_only ascii_only s.
Proof.
  unfold digits_only. induction 1 as [|c s Hc _ IH]; [reflexivity|]. simpl.
  rewrite (is_digit_ascii c Hc), IH. reflexivity.
Qed.

Lemma format_mobile_number_ascii (mobile : str) :
  Forall is_ascii mobile -> format_mobile_number mobile = @format_mobile_number ascii_only mobile.
Proof.
  intros Hs. unfold format_mobile_number. destruct mobile as [|c rest]; [reflexivity|].
  fold (digits_only (c :: rest)). fold (@digits_only ascii_only (c :: rest)).
  now rewrite (digits_only_ascii _ Hs).
Qed.

End StringFacts.

(** On an ASCII literal, compute with the ASCII table. *)
Ltac by_ascii_table :=
  first [ rewrite format_mobile_number_ascii by (apply all_ascii_Forall; reflexivity)
        | idtac ];
  vm_compute; reflexivity.

(** ** Phone normalization *)

(** C6 fails for ten digits that start with 91: the number is returned as
    it came, with no country code added.  The number is ASCII, so every
    table gives what the ASCII table gives. *)
Lemma format_mobile_ten_digits_91 :
  let mobile := lit "9123456789" in
  length (drop_leading_zero (@digits_only ascii_only mobile)) = 10
  /\ @format_mobile_number ascii_only mobile = mobile
  /\ @format_mobile_number ascii_only mobile
     <> lit "+91" ++ drop_leading_zero (@digits_only ascii_only mobile).
Proof. cbv zeta. split; [reflexivity | split; [reflexivity | discriminate]]. Qed.

(** C6, amended: with [digits] the digits of the input after one leading
    0 is dropped, ten digits that do not start with 91 give +91 and the
    digits; twelve digits that start with 91 give + and the digits; every
    other input, ten digits that start with 91 included, is returned
    unchanged.  The four sample numbers behave as the specification lists
    them. *)
Theorem format_mobile_number_cases `{Unicode} (mobile : str) :
  let digits := drop_leading_zero (digits_only mobile) in
  (length digits = 10 /\ ~ starts_with (lit "91") digits ->
     format_mobile_number mobile = lit "+91" ++ digits)
  /\ (length digits = 12 /\ starts_with (lit "91") digits ->
     format_mobile_number mobile = lit "+" ++ digits)
  /\ (~ (length digits = 10 /\ ~ starts_with (lit "91") digits)
      /\ ~ (length digits = 12 /\ starts_with (lit "91") digits) ->
     format_mobile_number mobile = mobile)
  /\ format_mobile_number (lit "9876543210") = lit "+919876543210"
  /\ format_mobile_number (lit "09876543210") = lit "+919876543210"
  /\ format_mobile_number (lit "919876543210") = lit "+919876543210"
  /\ format_mobile_number (lit "12345") = lit "12345".
Proof.
  intros digits.
  assert (Hfmt : format_mobile_number mobile =
                 match mobile with
                 | [] => []
                 | _ => if negb (startswith (lit "91") digits) && (length digits =? 10)%nat
                        then lit "+91" ++ digits
                        else if (length digits =? 12)%nat && startswith (lit "91") digits
                             then lit "+" ++ digits else mobile
                 end).
  { unfold format_mobile_number, digits, digits_only.
    destruct mobile; [reflexivity|]. now rewrite startswith_zero. }
  destruct (startswith (lit "91") digits) eqn:E91.
  - assert (H91 : starts_with (lit "91") digits) by now apply startswith_iff.
    repeat split; try by_ascii_table.
    + intros [_ Hn]. contradiction.
    + intros [Hlen _]. rewrite Hfmt, Hlen. simpl.
      destruct mobile; [discriminate Hlen | reflexivity].
    + intros [_ H12]. rewrite Hfmt. simpl.
      destruct (Nat.eqb_spec (length digits) 12) as [Hl|Hl]; [tauto|].
      destruct mobile; reflexivity.
  - assert (H91 : ~ starts_with (lit "91") digits).
    { intros Hs. apply startswith_iff in Hs. congruence. }
    repeat split; try by_ascii_table.
    + intros [Hlen _]. rewrite Hfmt, Hlen. simpl.
      destruct mobile; [discriminate Hlen | reflexivity].
    + intros [_ Hs]. contradiction.
    + intros [H10 _]. rewrite Hfmt. simpl.
      destruct (Nat.eqb_spec (length digits) 10) as [Hl|Hl]; [tauto|].
      simpl. rewrite andb_false_r. destruct mobile; reflexivity.
Qed.

Lemma format_mobile_number_cases_applied :
  @format_mobile_number ascii_only (lit "+91 98765-43210") = lit "+919876543210".
Proof.
  apply (proj1 (proj2 (@format_mobile_number_cases ascii_only (lit "+91 98765-43210")))).
  split; [reflexivity | exists (lit "9876543210"); reflexivity].
Defined.

(** ** Terminal resolver *)

Section Trimming.

Context `{Unicode}.

Lemma lstrip_whitespace (s : str) : whitespace s -> lstrip s = [].
Proof. induction 1 as [|c s Hc _ IH]; [reflexivity|]. simpl. now rewrite Hc. Qed.

Lemma lstrip_skip (l t : str) : whitespace l -> lstrip (l ++ t) = lstrip t.
Proof. induction 1 as [|c l Hc _ IH]; [reflexivity|]. simpl. now rewrite Hc. Qed.

Lemma lstrip_fixed (t : str) : ~ space_at_start t -> lstrip t = t.
Proof.
  intros Ht. destruct t as [|c t]; [reflexivity|]. simpl.
  destruct (is_space c) eqn:E; [|reflexivity].
  exfalso. apply Ht. now exists c, t.
Qed.

Lemma lstrip_split (s : str) : exists l, s = l ++ lstrip s /\ whitespace l.
Proof.
  induction s as [|c s (l & Hl & Hw)]; [exists []; split; [reflexivity | constructor]|].
  simpl. destruct (is_space c) eqn:E.
  - exists (c :: l). split; [simpl; now f_equal | now constructor].
  - exists []. split; [reflexivity | constructor].
Qed.

Lemma lstrip_no_space (s : str) : ~ space_at_start (lstrip s).
Proof.
  induction s as [|c s IH]; simpl.
  - intros (c & r & [=] & _).
  - destruct (is_space c) eqn:E; [exact IH|].
    intros (c' & r & [= <- <-] & Hc). congruence.
Qed.

Lemma space_at_end_rev (t : str) : space_at_start (rev t) <-> space_at_end t.
Proof.
  split.
  - intros (c & r & Hr & Hc). exists (rev r), c. split; [|exact Hc].
    rewrite <- (rev_involutive t), Hr. reflexivity.
  - intros (f & c & -> & Hc). exists c, (rev f). now rewrite rev_app_distr.
Qed.

(** [strip] gives the trimmed string, which is unique. *)
Lemma strip_unique (raw name : str) : trimmed_of raw name -> strip raw = name.
Proof.
  intros [(l & r & -> & Hl & Hr) [Hs He]]. unfold strip, rstrip.
  rewrite lstrip_skip by exact Hl.
  destruct name as [|c name'].
  - simpl. now rewrite (lstrip_whitespace r Hr).
  - rewrite (lstrip_fixed ((c :: name') ++ r)).
    + rewrite rev_app_distr, lstrip_skip by now apply Forall_rev.
      rewrite lstrip_fixed by now rewrite space_at_end_rev.
      apply rev_involutive.
    + intros (c' & rest & [= <- _] & Hc). apply Hs. now exists c, name'.
Qed.

Lemma strip_trimmed (raw : str) : trimmed_of raw (strip raw).
Proof.
  unfold strip, rstrip.
  destruct (lstrip_split raw) as (l & Hraw & Hl).
  destruct (lstrip_split (rev (lstrip raw))) as (l2 & Hrev & Hl2).
  set (s2 := lstrip (rev (lstrip raw))) in *.
  assert (Hs1 : lstrip raw = rev s2 ++ rev l2).
  { rewrite <- rev_app_distr, <- Hrev. symmetry. apply rev_involutive. }
  split; [|split].
  - exists l, (rev l2). split; [now rewrite <- Hs1 | split; [exact Hl | now apply Forall_rev]].
  - intros (c & rest & Hc & Hsp). apply (lstrip_no_space raw).
    exists c, (rest ++ rev l2). split; [now rewrite Hs1, Hc | exact Hsp].
  - intros Hend. apply space_at_end_rev in Hend. rewrite rev_involutive in Hend.
    now apply (lstrip_no_space (rev (lstrip raw))).
Qed.

Lemma strip_space_first (c : char) (s : str) :
  is_space c = true -> strip (c :: s) = strip s.
Proof. intros Hc. unfold strip. simpl. now rewrite Hc. Qed.

End Trimming.

Section TerminalFilter.

Context `{Unicode}.

Let sp : str := lit " ".

Lemma padded_token (kw name : str) :
  occurs_in (sp ++ kw ++ sp) (sp ++ name ++ sp) <-> standalone_token kw name.
Proof using Type.
  unfold occurs_in, standalone_token, sp.
  change (lit " ") with [32%N]. split.
  - intros (b & a & Hocc).
    assert (Hpre : exists pre, name ++ [32%N] = pre ++ kw ++ [32%N] ++ a
                               /\ (pre = [] \/ exists b', pre = b' ++ [32%N])).
    { destruct b as [|c b'].
      - exists []. split; [|now left].
        simpl in Hocc. injection Hocc as Hocc. rewrite Hocc. now rewrite <- !app_assoc.
      - exists (b' ++ [32%N]). split; [|right; now exists b'].
        simpl in Hocc. injection Hocc as <- Hocc. rewrite Hocc. now rewrite <- !app_assoc. }
    destruct Hpre as (pre & Hname & Hpre).
    exists pre. destruct a as [|x a' _] using rev_ind.
    + exists []. rewrite app_nil_r in *. split; [|tauto].
      rewrite app_assoc in Hname. now apply app_inj_tail in Hname as [-> _].
    + exists ([32%N] ++ a'). split; [|split; [exact Hpre | right; now exists a']].
      rewrite !app_assoc in Hname. apply app_inj_tail in Hname as [-> _].
      now rewrite <- !app_assoc.
  - intros (b & a & -> & Hb & Ha).
    destruct Hb as [-> | [b' ->]], Ha as [-> | [a' ->]].
    + exists [], []. now rewrite !app_nil_r.
    + exists [], (a' ++ [32%N]). now rewrite <- !app_assoc.
    + exists ([32%N] ++ b'), []. now rewrite <- !app_assoc, !app_nil_r.
    + exists ([32%N] ++ b'), (a' ++ [32%N]). now rewrite <- !app_assoc.
Qed.

Lemma token_in_iff (name kw : str) :
  token_in name kw = true <-> standalone_token (lower kw) name.
Proof. unfold token_in. rewrite contains_iff. apply padded_token. Qed.

Lemma any_iff {A : Type} (f : A -> bool) (l : list A) :
  any f l = true <-> exists x, In x l /\ f x = true.
Proof using Type. apply existsb_exists. Qed.

Lemma any_ext {A : Type} (f g : A -> bool) (l : list A) :
  (forall x, In x l -> f x = g x) -> any f l = any g l.
Proof using Type.
  unfold any. induction l as [|x l IH]; [reflexivity|]. intros Hfg. simpl.
  rewrite (Hfg x) by now left. rewrite IH; [reflexivity|].
  intros y Hy. apply Hfg. now right.
Qed.

Lemma dict_get_In {V : Type} (k : str) (d : list (str * V)) (v : V) :
  dict_get k d = Some v -> In (k, v) d.
Proof using Type.
  induction d as [|[k' v'] d IH]; simpl; [discriminate|].
  destruct (PyStr.eqb k k') eqn:E.
  - apply eqb_true_iff in E as <-. intros [= ->]. now left.
  - right. auto.
Qed.

Lemma dict_get_None {V : Type} (k : str) (d : list (str * V)) :
  dict_get k d = None -> ~ In k (map fst d).
Proof using Type.
  induction d as [|[k' v'] d IH]; simpl; [tauto|].
  destruct (PyStr.eqb k k') eqn:E; [discriminate|].
  intros Hd [-> | Hin]; [|now apply IH].
  assert (PyStr.eqb k k = true) by now apply eqb_true_iff. congruence.
Qed.

(** The keywords looked up are the keywords of the table. *)
Lemma branch_keywords_table (branch_name kw : str) :
  In kw (branch_keywords branch_name) <-> keyword_of branch_name kw.
Proof using Type.
  unfold branch_keywords. split.
  - destruct (dict_get branch_name BRANCH_KEYWORDS) as [kws|] eqn:E.
    + apply dict_get_In in E. simpl in E.
      repeat (destruct E as [[= <- <-] | E];
              [simpl; intros Hin;
               repeat (destruct Hin as [<- | Hin]; [constructor|]); destruct Hin|]).
      destruct E.
    + apply dict_get_None in E. intros [<- | []]. now constructor.
  - intros Hkw. destruct Hkw; try (vm_compute; tauto).
    destruct (dict_get branch BRANCH_KEYWORDS) as [kws|] eqn:E; [|now left].
    exfalso. apply dict_get_In in E. apply H0.
    change listed_branches with (map fst BRANCH_KEYWORDS).
    apply in_map_iff. now exists (branch, kws).
Qed.

Lemma keyword_nonempty (branch_name kw : str) :
  branch_name <> [] -> keyword_of branch_name kw -> kw <> [].
Proof using Type. intros Hne Hkw. destruct Hkw; (discriminate || exact Hne). Qed.

Lemma keyword_ascii (branch_name kw : str) :
  Forall is_ascii branch_name -> keyword_of branch_name kw -> Forall is_ascii kw.
Proof using Type.
  intros Hb Hkw. destruct Hkw; try (apply all_ascii_Forall; reflexivity). exact Hb.
Qed.

Lemma starts_with_nonempty (kw name : str) : kw <> [] -> starts_with kw name -> name <> [].
Proof using Type. intros Hk [r ->]. destruct kw; [congruence | discriminate]. Qed.

Lemma standalone_token_nonempty (kw name : str) :
  kw <> [] -> standalone_token kw name -> name <> [].
Proof using Type.
  intros Hk (b & a & -> & _). destruct b; [|discriminate].
  destruct kw; [congruence | discriminate].
Qed.

(** The decision of the loop body about one name, [name] being the
    trimmed, lowercased name of the terminal. *)
Lemma accepts_rule (branch_name raw_name : str) :
  let name := lower (strip raw_name) in
  let local_expo := branch_name = lit "Saree Trails" /\ occurs_in (lit "local expo") name in
  branch_name <> [] ->
  accepts branch_name raw_name = true <->
    (local_expo
     /\ exists kw, keyword_of branch_name kw /\ standalone_token (lower kw) name)
    \/ (~ local_expo
        /\ ((exists kw, keyword_of branch_name kw /\ starts_with (lower kw) name)
            \/ exists kw, keyword_of branch_name kw /\ standalone_token (lower kw) name)).
Proof.
  intros name local_expo Hbranch.
  assert (Hin : forall kw, keyword_of branch_name kw -> lower kw <> []).
  { intros kw Hkw E. apply (keyword_nonempty branch_name kw Hbranch Hkw).
    now apply lower_nil. }
  assert (Htok : any (token_in name) (branch_keywords branch_name) = true
                 <-> exists kw, keyword_of branch_name kw /\ standalone_token (lower kw) name).
  { rewrite any_iff. split; intros (kw & Hkw & Ht); exists kw;
      (split; [now apply branch_keywords_table | now apply token_in_iff]). }
  assert (Hstart : any (fun kw => startswith (lower kw) name) (branch_keywords branch_name) = true
                   <-> exists kw, keyword_of branch_name kw /\ starts_with (lower kw) name).
  { rewrite any_iff. split; intros (kw & Hkw & Ht); exists kw;
      (split; [now apply branch_keywords_table | now apply startswith_iff]). }
  assert (Hlocal : contains (lit "local expo") name && PyStr.eqb branch_name (lit "Saree Trails") = true
                   <-> local_expo).
  { rewrite andb_true_iff, contains_iff, eqb_true_iff. unfold local_expo. tauto. }
  unfold accepts, keep_config. fold name.
  destruct name as [|c name'] eqn:Ename.
  - split; [discriminate|].
    intros [(_ & kw & Hkw & Ht) | (_ & [(kw & Hkw & Ht) | (kw & Hkw & Ht)])]; exfalso.
    + now apply (standalone_token_nonempty (lower kw) [] (Hin kw Hkw)).
    + now apply (starts_with_nonempty (lower kw) [] (Hin kw Hkw)).
    + now apply (standalone_token_nonempty (lower kw) [] (Hin kw Hkw)).
  - destruct (contains (lit "local expo") (c :: name') && PyStr.eqb branch_name (lit "Saree Trails"))
      eqn:E.
    + assert (Hl : local_expo) by now apply Hlocal.
      rewrite Htok. tauto.
    + assert (Hl : ~ local_expo) by (intros Hle; apply Hlocal in Hle; congruence).
      rewrite orb_true_iff, Htok, Hstart. tauto.
Qed.

(** The list returned holds the dictionaries of the reply that the loop
    body accepts, in the order of the reply. *)
Lemma filter_configs_In (branch_name : str) (configs : list config_item) (c : pos_config) :
  In c (filter_configs branch_name configs)
  <-> In (Config c) configs /\ accepts branch_name (cfg_name c) = true.
Proof.
  unfold filter_configs. rewrite in_flat_map. split.
  - intros ([|c'] & Hin & Hc); [destruct Hc|].
    destruct (accepts branch_name (cfg_name c')) eqn:E; [|destruct Hc].
    destruct Hc as [<- | []]. auto.
  - intros [Hin Hacc]. exists (Config c). split; [exact Hin|].
    rewrite Hacc. now left.
Qed.

(** On an ASCII branch and an ASCII name the decision is the one the ASCII
    tables give. *)
Lemma keep_config_ascii (branch_name name : str) :
  Forall is_ascii branch_name -> Forall is_ascii name ->
  keep_config branch_name (branch_keywords branch_name) name
  = @keep_config ascii_only branch_name (branch_keywords branch_name) name.
Proof.
  intros Hb Hn. unfold keep_config.
  assert (Hkw : forall kw, In kw (branch_keywords branch_name) ->
                           lower kw = @lower ascii_only kw).
  { intros kw Hkw. apply lower_ascii.
    apply (keyword_ascii branch_name kw Hb). now apply branch_keywords_table. }
  rewrite (any_ext (token_in name) (@token_in ascii_only name)).
  - rewrite (any_ext (fun kw => startswith (lower kw) name)
                     (fun kw => startswith (@lower ascii_only kw) name)).
    + reflexivity.
    + intros kw Hin. now rewrite (Hkw kw Hin).
  - intros kw Hin. unfold token_in. now rewrite (Hkw kw Hin).
Qed.

Lemma accepts_ascii (branch_name raw_name : str) :
  Forall is_ascii branch_name -> Forall is_ascii raw_name ->
  accepts branch_name raw_name = @accepts ascii_only branch_name raw_name.
Proof.
  intros Hb Hr. unfold accepts.
  rewrite <- (lower_strip_ascii raw_name Hr).
  apply keep_config_ascii; [exact Hb|].
  rewrite lower_ascii by now apply strip_Forall.
  apply List.Forall_forall. intros c Hc. apply in_map_iff in Hc as (c0 & <- & Hc0).
  pose proof (strip_Forall is_ascii raw_name Hr) as Hs.
  rewrite List.Forall_forall in Hs. specialize (Hs c0 Hc0).
  unfold is_ascii, ascii_lower in *.
  destruct ((65 <=? c0)%N && (c0 <=? 90)%N) eqn:E; [|exact Hs].
  apply andb_true_iff in E as [_ E]. apply N.leb_le in E. lia.
Qed.

(** A name that differs from an ASCII name by one leading whitespace
    character, ASCII or not, is decided as that name. *)
Lemma accepts_space_first (branch_name raw_name : str) (c : char) :
  is_space c = true -> accepts branch_name (c :: raw_name) = accepts branch_name raw_name.
Proof. intros Hc. unfold accepts. now rewrite (strip_space_first c raw_name Hc). Qed.

End TerminalFilter.

Lemma filter_configs_ascii `{Unicode} (branch_name : str) (configs : list config_item) :
  Forall is_ascii branch_name ->
  Forall (fun item => match item with
                      | ConfigNotDict => True
                      | Config c => Forall is_ascii (cfg_name c)
                      end) configs ->
  filter_configs branch_name configs = @filter_configs ascii_only branch_name configs.
Proof.
  intros Hb. unfold filter_configs.
  induction 1 as [|[|c] configs Hc _ IH]; [reflexivity | exact IH |].
  cbn [flat_map]. now rewrite IH, (accepts_ascii branch_name (cfg_name c) Hb Hc).
Qed.

(** Filter a sample reply with the ASCII tables. *)
Ltac filter_ascii_reply :=
  cbn [fetch_pos_configs];
  rewrite filter_configs_ascii
    by (repeat constructor; apply all_ascii_Forall; reflexivity);
  vm_compute; reflexivity.

(** C7: for a branch (a non-empty branch name), the list returned holds
    exactly the dictionaries of the reply whose trimmed, lowercased name
    starts with one of the branch's keywords, lowercased, or has one as a
    standalone token; for "Saree Trails" a name that contains "local expo"
    is kept exactly when a keyword is a standalone token of it, whatever
    it starts with.  For "TN" the name "ANTENNA" is dropped, and a padded
    name, a name with the token "tn" and a name that starts with "tn" after
    trimming are kept; for "Saree Trails" the name "PUNEX Local Expo" is dropped
    although it starts with the keyword, while "Punex Main" is kept; for
    "CBE" the keyword "CB" is enough; and a name that a no-break space
    precedes is trimmed and kept when the library counts that character
    as whitespace. *)
Theorem fetch_pos_configs_accepts `{Unicode} (branch_name : str)
    (configs : list config_item) (c : pos_config) :
  let keyword_start name :=
    exists kw, keyword_of branch_name kw /\ starts_with (lower kw) name in
  let keyword_token name :=
    exists kw, keyword_of branch_name kw /\ standalone_token (lower kw) name in
  let local_expo name :=
    branch_name = lit "Saree Trails" /\ occurs_in (lit "local expo") name in
  (branch_name <> [] ->
   In c (fetch_pos_configs (Returned configs) branch_name) <->
     In (Config c) configs
     /\ exists trimmed,
          trimmed_of (cfg_name c) trimmed
          /\ ((local_expo (lower trimmed) /\ keyword_token (lower trimmed))
              \/ (~ local_expo (lower trimmed)
                  /\ (keyword_start (lower trimmed) \/ keyword_token (lower trimmed)))))
  /\ fetch_pos_configs (Returned tn_reply) (lit "TN")
     = [terminal_named 2 (lit "  TN Main "); terminal_named 3 (lit "Shop tn 2");
        terminal_named 4 (lit " TNX")]
  /\ fetch_pos_configs (Returned saree_trails_reply) (lit "Saree Trails")
     = [terminal_named 6 (lit "Local Expo Pune"); terminal_named 7 (lit "Punex Main")]
  /\ fetch_pos_configs (Returned [Config (terminal_named 8 (lit "cb 1"))]) (lit "CBE")
     = [terminal_named 8 (lit "cb 1")]
  /\ (is_space no_break_space = true ->
      fetch_pos_configs
        (Returned [Config (terminal_named 9 (no_break_space :: lit "TN 1"))]) (lit "TN")
      = [terminal_named 9 (no_break_space :: lit "TN 1")]).
Proof.
  intros keyword_start keyword_token local_expo.
  split; [|split; [|split; [|split]]]; try filter_ascii_reply.
  - intros Hbranch. cbn [fetch_pos_configs]. rewrite filter_configs_In.
    pose proof (accepts_rule branch_name (cfg_name c) Hbranch) as Hacc.
    cbv zeta in Hacc. rewrite Hacc. clear Hacc.
    unfold keyword_start, keyword_token, local_expo. split.
    + intros [Hin Hrule]. split; [exact Hin|].
      exists (strip (cfg_name c)). split; [apply strip_trimmed | exact Hrule].
    + intros [Hin (trimmed & Ht & Hrule)]. split; [exact Hin|].
      apply strip_unique in Ht. rewrite Ht. exact Hrule.
  - intros Hsp. cbn [fetch_pos_configs filter_configs flat_map terminal_named cfg_name].
    rewrite (accepts_space_first (lit "TN") (lit "TN 1") no_break_space Hsp).
    rewrite accepts_ascii by (apply all_ascii_Forall; reflexivity).
    reflexivity.
Qed.

Lemma fetch_pos_configs_accepts_applied :
  In (terminal_named 2 (lit "  TN Main "))
     (@fetch_pos_configs ascii_only (Returned tn_reply) (lit "TN")).
Proof.
  apply (proj1 (@fetch_pos_configs_accepts ascii_only (lit "TN") tn_reply
                  (terminal_named 2 (lit "  TN Main ")))); [discriminate|].
  split; [right; right; now left|].
  exists (lit "TN Main"). split.
  - split; [|split].
    + exists (lit "  "), (lit " "). split; [reflexivity|].
      split; repeat constructor.
    + intros (c & rest & [= <- _] & Hc). discriminate Hc.
    + intros Hend. apply (@space_at_end_rev ascii_only) in Hend.
      destruct Hend as (c & rest & [= <- _] & Hc). discriminate Hc.
  - right. split.
    + intros [Hb _]. discriminate Hb.
    + left. exists (lit "TN"). split; [constructor|]. now exists (lit " main").
Defined.

(** ** Id scan *)

Section IdScan.

(** Whatever the remote service answers, a run that ends normally has
    received non-empty pages followed by one empty page, and returns the
    concatenation of the pages. *)
Lemma scan_loop_pages (search : nat -> nat -> rpc (list Z)) (limit : nat) :
  forall fuel st st',
    scan_loop fuel search limit st = Some (Returned st') ->
    exists ps,
      pages st' = pages st ++ ps ++ [[]]
      /\ Forall (fun p => p <> []) ps
      /\ order_ids st' = order_ids st ++ concat ps.
Proof.
  induction fuel as [|fuel IH]; intros st st' H; [discriminate|].
  simpl in H. destruct (search (offset st) limit) as [batch|]; [|discriminate].
  destruct batch as [|x batch].
  - injection H as <-. exists []. simpl. now rewrite app_nil_r.
  - apply IH in H as (ps & Hp & Hne & Hids). simpl in *.
    exists ((x :: batch) :: ps). split; [|split].
    + now rewrite Hp, <- app_assoc.
    + constructor; [discriminate | exact Hne].
    + now rewrite Hids, <- app_assoc.
Qed.

Variable db : list Z.
Variable limit : nat.
Hypothesis limit_pos : 0 < limit.

Lemma pages_left (n : nat) :
  0 < n -> 1 + (n - Nat.min limit n + limit - 1) / limit = (n + limit - 1) / limit.
Proof using limit_pos.
  intros Hn.
  replace (n + limit - 1) with ((n - 1) + 1 * limit) by lia.
  rewrite Nat.div_add by lia.
  destruct (Nat.le_gt_cases limit n) as [Hle|Hlt].
  - rewrite Nat.min_l by exact Hle.
    replace (n - limit + limit - 1) with (n - 1) by lia. lia.
  - rewrite Nat.min_r by lia.
    rewrite !Nat.div_small by lia. reflexivity.
Qed.

Lemma scan_loop_consistent :
  forall fuel st,
    offset st <= length db ->
    length db - offset st < fuel ->
    order_ids st = firstn (offset st) db ->
    exists ps,
      scan_loop fuel (consistent_search db) limit st
      = Some (Returned {| order_ids := db; offset := length db;
                          pages := pages st ++ ps ++ [[]] |})
      /\ Forall (fun p => p <> []) ps
      /\ length ps = (length db - offset st + limit - 1) / limit.
Proof using limit_pos.
  induction fuel as [|fuel IH]; intros [ids off pgs] Hoff Hfuel Hids; simpl in *; [lia|].
  unfold consistent_search at 1.
  destruct (firstn limit (skipn off db)) as [|x batch] eqn:Ebatch.
  - assert (Hlen : length (firstn limit (skipn off db)) = 0) by now rewrite Ebatch.
    rewrite length_firstn, length_skipn in Hlen.
    assert (off = length db) as -> by lia.
    exists []. rewrite Hids, firstn_all. simpl.
    split; [reflexivity | split; [constructor|]].
    rewrite Nat.sub_diag. simpl. rewrite Nat.div_small by lia. reflexivity.
  - assert (Hlen : length (x :: batch) = Nat.min limit (length db - off)).
    { now rewrite <- Ebatch, length_firstn, length_skipn. }
    assert (Hpos : 0 < length (x :: batch)) by (simpl; lia).
    assert (Hne0 : x :: batch <> []) by discriminate.
    remember (x :: batch) as b eqn:Eb. clear Eb x batch.
    destruct (IH {| order_ids := ids ++ b; offset := off + length b;
                    pages := pgs ++ [b] |}) as (ps & Hrun & Hne & Hcount);
      cbn [offset order_ids pages] in *.
    + lia.
    + lia.
    + rewrite Hlen, Hids, <- Ebatch.
      destruct (Nat.le_gt_cases limit (length db - off)) as [Hle|Hlt].
      * rewrite Nat.min_l by exact Hle. apply take_take_drop.
      * rewrite Nat.min_r by lia. rewrite take_take_drop.
        rewrite !firstn_all2 by lia. reflexivity.
    + exists (b :: ps). split; [|split].
      * rewrite <- app_assoc in Hrun. exact Hrun.
      * constructor; [exact Hne0 | exact Hne].
      * simpl length at 1. rewrite Hcount, Hlen.
        replace (length db - (off + Nat.min limit (length db - off)))
          with ((length db - off) - Nat.min limit (length db - off)) by lia.
        apply pages_left. lia.
Qed.

Lemma scan_from_start (fuel : nat) :
  length db < fuel ->
  exists ps,
    scan_loop fuel (consistent_search db) limit scan_start
    = Some (Returned {| order_ids := db; offset := length db; pages := ps ++ [[]] |})
    /\ Forall (fun p => p <> []) ps
    /\ length ps = (length db + limit - 1) / limit.
Proof using limit_pos.
  intros Hfuel.
  destruct (scan_loop_consistent fuel scan_start) as (ps & H & Hne & Hc);
    simpl; try lia; [reflexivity|].
  exists ps. rewrite Nat.sub_0_r in Hc. auto.
Qed.

End IdScan.

(** C3: over a remote service that answers offset/limit queries from one
    fixed list of ids, with a positive page size and whatever the number of
    ids (none, fewer than a page, exactly one page, more), the scan returns
    that very list: every id once, none missing, in the service's order; and
    the pages it has fetched, put end to end, are that list, so no id is
    fetched twice. *)
Theorem fetch_order_ids_drains (db : list Z) (limit fuel : nat) :
  0 < limit ->
  length db < fuel ->
  fetch_order_ids fuel (consistent_search db) limit = Some db
  /\ exists seen,
       search_pages fuel (consistent_search db) limit = Some seen /\ concat seen = db.
Proof.
  intros Hl Hf. unfold fetch_order_ids, search_pages.
  destruct (scan_from_start db limit Hl fuel Hf) as (ps & Hrun & _).
  rewrite Hrun. split; [reflexivity|]. eexists. split; [reflexivity|].
  apply scan_loop_pages in Hrun as (ps' & Hp & _ & Hids). simpl in Hp, Hids |- *.
  rewrite Hp, concat_app. simpl. now rewrite app_nil_r.
Qed.

Lemma fetch_order_ids_drains_full_page :
  fetch_order_ids 4 (consistent_search [11; 12; 13]%Z) 3 = Some [11; 12; 13]%Z.
Proof. apply fetch_order_ids_drains; simpl; lia. Defined.

(** C4 fails on a short page that is not empty: with one id and a page
    size of two, the first page is short and a second search is issued. *)
Lemma scan_continues_after_short_page :
  search_pages 3 (consistent_search [7]%Z) 2 = Some [[7]%Z; []]
  /\ ~ no_call_after_short_page 2 [[7]%Z; []].
Proof.
  split; [reflexivity|]. intros H.
  specialize (H [] [7]%Z [[]] eq_refl). simpl in H.
  discriminate H. lia.
Qed.

(** C4, amended: the loop stops exactly at the first empty page.  Whatever
    the remote service answers, the pages of a run that ends normally are
    non-empty pages followed by one empty page; over a consistent service
    holding T ids, with page size L > 0, the run ends normally after
    ceil(T / L) non-empty pages and the empty one, so a short non-empty last
    page is followed by one more search. *)
Theorem scan_stops_at_first_empty_page :
  (forall search limit fuel seen,
     search_pages fuel search limit = Some seen ->
     exists ps, seen = ps ++ [[]] /\ Forall (fun p => p <> []) ps)
  /\ (forall db limit fuel,
        0 < limit ->
        length db < fuel ->
        exists ps,
          search_pages fuel (consistent_search db) limit = Some (ps ++ [[]])
          /\ Forall (fun p => p <> []) ps
          /\ length ps = (length db + limit - 1) / limit).
Proof.
  split.
  - intros search limit fuel seen H. unfold search_pages in H.
    destruct (scan_loop fuel search limit scan_start) as [[st|]|] eqn:E; try discriminate.
    injection H as <-. apply scan_loop_pages in E as (ps & Hp & Hne & _).
    exists ps. auto.
  - intros db limit fuel Hl Hf.
    destruct (scan_from_start db limit Hl fuel Hf) as (ps & H & Hne & Hc).
    exists ps. unfold search_pages. rewrite H. auto.
Qed.

Lemma scan_stops_at_first_empty_page_applied :
  exists ps,
    search_pages 3 (consistent_search [7]%Z) 2 = Some (ps ++ [[]])
    /\ Forall (fun p => p <> []) ps
    /\ length ps = 1.
Proof. apply (proj2 scan_stops_at_first_empty_page [7]%Z 2 3); simpl; lia. Defined.

(** ** Record read *)

Section BatchedRead.

Context {A : Type}.
Variable read : list Z -> rpc (read_value A).
Variable size : nat.
Variable ids : list Z.

Let chunk (i : nat) : list Z := slice ids i size.

Lemma read_fold_raised (idxs : list nat) :
  fold_left (read_step read size ids) idxs None = None.
Proof. induction idxs; simpl; auto. Qed.

Lemma read_step_records (got : list A) (i : nat) :
  read (chunk i) <> Raised ->
  read_step read size ids (Some got) i = Some (got ++ records_of (read (chunk i))).
Proof.
  unfold read_step, chunk. destruct (read (slice ids i size)) as [[[|r l]|]|]; simpl; intros H;
    rewrite ?app_nil_r; congruence.
Qed.

Lemma read_fold_all (idxs : list nat) (got : list A) :
  Forall (fun i => read (chunk i) <> Raised) idxs ->
  fold_left (read_step read size ids) idxs (Some got)
  = Some (got ++ flat_map (fun i => records_of (read (chunk i))) idxs).
Proof.
  intros H. revert got. induction H as [|i idxs Hi _ IH]; intros got; cbn [fold_left flat_map].
  - now rewrite app_nil_r.
  - rewrite read_step_records by exact Hi. rewrite IH. now rewrite <- app_assoc.
Qed.

Lemma read_fold_some_raised (idxs : list nat) (got : list A) :
  Exists (fun i => read (chunk i) = Raised) idxs ->
  fold_left (read_step read size ids) idxs (Some got) = None.
Proof.
  intros H. revert got. induction H as [i idxs Hi | i idxs _ IH]; intros got; cbn [fold_left].
  - unfold read_step at 2. fold (chunk i). rewrite Hi. apply read_fold_raised.
  - destruct (read_step read size ids (Some got) i); [apply IH | apply read_fold_raised].
Qed.

Lemma chunks_Forall (P : list Z -> Prop) :
  Forall P (chunks size ids)
  <-> Forall (fun i => P (chunk i)) (range_step (length ids) size).
Proof.
  unfold chunks. induction (range_step (length ids) size) as [|i l IH]; simpl.
  - split; constructor.
  - split; intros H; inversion H; subst; constructor; auto; now apply IH.
Qed.

Lemma chunks_Exists (P : list Z -> Prop) :
  Exists P (chunks size ids)
  <-> Exists (fun i => P (chunk i)) (range_step (length ids) size).
Proof.
  unfold chunks. induction (range_step (length ids) size) as [|i l IH]; simpl.
  - split; intros H; inversion H.
  - split; intros H; inversion H; subst;
      solve [now apply Exists_cons_hd | apply Exists_cons_tl; now apply IH].
Qed.

Lemma chunks_flat_map {B : Type} (f : list Z -> list B) :
  flat_map f (chunks size ids)
  = flat_map (fun i => f (chunk i)) (range_step (length ids) size).
Proof.
  unfold chunks. induction (range_step (length ids) size) as [|i l IH]; simpl;
    [reflexivity | now rewrite IH].
Qed.

End BatchedRead.

(** C5 fails when a [read] raises: the first chunk is read, the second
    raises, and the records of the first are not returned. *)
Lemma first_chunk_discarded :
  chunks 2 [1; 2; 3]%Z = [[1; 2]; [3]]%Z
  /\ records_of (read_first_chunk_only [1; 2]%Z)
     = [Dict (customer_order 8 100); Dict (walk_in_order 50)]
  /\ read_first_chunk_only [3]%Z = Raised
  /\ fetch_order_details read_first_chunk_only 2 [1; 2; 3]%Z = [].
Proof. repeat split. Qed.

(** C5, amended: with a positive batch size, if the [read] of any chunk
    raises, the whole call returns the empty list, the records of the chunks
    read before it included; if no [read] raises, the result is the records
    of all chunks in order, a chunk whose [read] returns an empty or
    non-list value adding nothing and taking nothing away. *)
Theorem fetch_order_details_outcome
    (read : list Z -> rpc (read_value order_item)) (size : nat) (ids : list Z) :
  0 < size ->
  (Exists (fun c => read c = Raised) (chunks size ids) ->
     fetch_order_details read size ids = [])
  /\ (Forall (fun c => read c <> Raised) (chunks size ids) ->
     fetch_order_details read size ids
     = flat_map (fun c => records_of (read c)) (chunks size ids)).
Proof.
  intros Hsize. unfold fetch_order_details, read_in_batches.
  destruct size as [|n]; [lia|]. split; intros H.
  - apply chunks_Exists in H. now rewrite read_fold_some_raised.
  - apply chunks_Forall in H. rewrite read_fold_all by exact H.
    now rewrite chunks_flat_map.
Qed.

Lemma fetch_order_details_outcome_applied :
  fetch_order_details read_first_chunk_only 2 [1; 2; 3]%Z = [].
Proof.
  apply (proj1 (fetch_order_details_outcome read_first_chunk_only 2 [1; 2; 3]%Z
                  (Nat.lt_0_succ 1))).
  apply Exists_cons_tl, Exists_cons_hd. reflexivity.
Defined.

(** ** Dictionaries with a default *)

Section DefaultDict.

Context {K V : Type} `{EqDecision K}.
Variable default : V.

Lemma dd_get_update (k k' : K) (f : V -> V) (d : list (K * V)) :
  dd_get default k' (dd_update default k f d)
  = if decide (k = k') then f (dd_get default k d) else dd_get default k' d.
Proof.
  induction d as [|[k0 v0] d IH]; simpl.
  - destruct (decide (k' = k)) as [->|Hne].
    + now rewrite decide_True.
    + now rewrite decide_False by congruence.
  - destruct (decide (k = k0)) as [->|Hk]; simpl.
    + destruct (decide (k' = k0)) as [->|Hk'].
      * now rewrite decide_True.
      * now rewrite decide_False by congruence.
    + destruct (decide (k' = k0)) as [->|Hk'].
      * now rewrite decide_False by exact Hk.
      * exact IH.
Qed.

Lemma dd_update_keys (k k' : K) (f : V -> V) (d : list (K * V)) :
  In k' (map fst (dd_update default k f d)) <-> k' = k \/ In k' (map fst d).
Proof.
  induction d as [|[k0 v0] d IH]; simpl.
  - intuition.
  - destruct (decide (k = k0)) as [->|Hk]; simpl.
    + intuition.
    + rewrite IH. intuition.
Qed.

Lemma dd_update_NoDup (k : K) (f : V -> V) (d : list (K * V)) :
  List.NoDup (map fst d) -> List.NoDup (map fst (dd_update default k f d)).
Proof.
  induction d as [|[k0 v0] d IH]; simpl; intros Hnd.
  - constructor; [intros [] | constructor].
  - inversion Hnd as [|? ? Hnotin Hnd']; subst.
    destruct (decide (k = k0)) as [->|Hk]; simpl.
    + now constructor.
    + constructor; [|now apply IH].
      rewrite dd_update_keys. intros [E | Hin]; [congruence | contradiction].
Qed.

Lemma dd_get_In (k : K) (v : V) (d : list (K * V)) :
  List.NoDup (map fst d) -> In (k, v) d -> dd_get default k d = v.
Proof.
  induction d as [|[k0 v0] d IH]; simpl; intros Hnd Hin; [contradiction|].
  inversion Hnd as [|? ? Hnotin Hnd']; subst.
  destruct Hin as [[= -> ->] | Hin].
  - now rewrite decide_True.
  - rewrite decide_False; [now apply IH|].
    intros ->. apply Hnotin. now apply (in_map fst) in Hin.
Qed.

Lemma dd_update_Forall (P : V -> Prop) (k : K) (f : V -> V) (d : list (K * V)) :
  (forall e, P (f e)) ->
  Forall (fun kv => P (snd kv)) d ->
  Forall (fun kv => P (snd kv)) (dd_update default k f d).
Proof.
  intros Hf. induction 1 as [|[k0 v0] d Hv Hd IH]; simpl.
  - constructor; [apply Hf | constructor].
  - destruct (decide (k = k0)); constructor; simpl; auto.
Qed.

(** A quantity that every update raises by [a] and that is 0 on the
    default adds up to [a] more over the whole dictionary. *)
(** A quantity that every update raises by [a] and that is 0 on the
    default adds up to [a] more over the whole dictionary. *)
Lemma dd_update_sum (m : V -> nat) (a : nat) (k : K) (f : V -> V) (d : list (K * V)) :
  m default = 0 ->
  (forall e, m (f e) = m e + a) ->
  fold_right (fun kv s => m (snd kv) + s) 0 (dd_update default k f d)
  = fold_right (fun kv s => m (snd kv) + s) 0 d + a.
Proof.
  intros H0 Hf. induction d as [|[k0 v0] d IH]; simpl.
  - rewrite Hf, H0. lia.
  - destruct (decide (k = k0)); simpl; [rewrite Hf | rewrite IH]; lia.
Qed.

End DefaultDict.

(** ** Customer summary *)

Section CustomerSummary.

Variable partner_dict : gmap Z partner.

Lemma has_customer_key (o : order) :
  has_customer o = true <-> exists k, customer_key o = Some k.
Proof.
  unfold has_customer, customer_key.
  destruct (resolve_ref (partner_id o)) as [v|]; [|split; [discriminate | intros [k [=]]]].
  destruct (truthy (Some v)); split; eauto; try discriminate. intros [k [=]].
Qed.

Lemma no_customer_key (o : order) :
  has_customer o = false <-> customer_key o = None.
Proof.
  unfold has_customer, customer_key.
  destruct (resolve_ref (partner_id o)) as [v|]; [|tauto].
  destruct (truthy (Some v)); split; congruence.
Qed.

Lemma customer_step_fields (d : list (Z * customer_entry)) (o : order) (k : Z) :
  customer_key o = Some k ->
  exists f,
    customer_step partner_dict d (Dict o) = dd_update customer_default k f d
    /\ (forall e,
          f e = {| c_name := get_field p_name (partner_dict !! k);
                   c_mobile := get_field p_mobile (partner_dict !! k);
                   c_email := get_field p_email (partner_dict !! k);
                   c_count := c_count e + 1;
                   c_total := (c_total e + amount o)%float |}).
Proof.
  unfold customer_key, customer_step, lookup_ref.
  destruct (resolve_ref (partner_id o)) as [v|]; [|discriminate].
  destruct (truthy (Some v)); [|discriminate]. intros [= <-].
  eexists. split; reflexivity.
Qed.

Lemma customer_step_some (d : list (Z * customer_entry)) (o : order) (k : Z) :
  customer_key o = Some k ->
  exists f,
    customer_step partner_dict d (Dict o) = dd_update customer_default k f d
    /\ (forall e, c_total (f e) = (c_total e + amount o)%float)
    /\ (forall e, c_count (f e) = c_count e + 1).
Proof.
  intros Hk. destruct (customer_step_fields d o k Hk) as (f & Hstep & Hf).
  exists f. split; [exact Hstep|]. split; intros e; now rewrite Hf.
Qed.

Lemma customer_step_none (d : list (Z * customer_entry)) (o : order) :
  customer_key o = None -> customer_step partner_dict d (Dict o) = d.
Proof.
  unfold customer_key, customer_step.
  destruct (resolve_ref (partner_id o)) as [v|]; [|reflexivity].
  destruct (truthy (Some v)); [discriminate | reflexivity].
Qed.

Lemma customer_data_snoc (orders : list order_item) (item : order_item) :
  customer_data partner_dict (orders ++ [item])
  = customer_step partner_dict (customer_data partner_dict orders) item.
Proof. unfold customer_data. now rewrite fold_left_app. Qed.

Lemma transactions_app (l1 l2 : list order_item) :
  transactions (l1 ++ l2) = transactions l1 ++ transactions l2.
Proof. apply flat_map_app. Qed.

Lemma running_sum_snoc (amounts : list float) (a : float) :
  running_sum (amounts ++ [a]) = (running_sum amounts + a)%float.
Proof. unfold running_sum. now rewrite fold_left_app. Qed.

Lemma orders_of_customer_snoc (k : Z) (orders : list order_item) (item : order_item) :
  orders_of_customer k (orders ++ [item])
  = orders_of_customer k orders
    ++ match item with
       | Dict o => if bool_decide (customer_key o = Some k) then [o] else []
       | NotDict => []
       end.
Proof.
  unfold orders_of_customer. rewrite transactions_app, List.filter_app. f_equal.
  destruct item as [|o]; [reflexivity|].
  change (transactions [Dict o]) with [o]. cbn [List.filter].
  now destruct (bool_decide (customer_key o = Some k)).
Qed.

Lemma customer_data_NoDup (orders : list order_item) :
  List.NoDup (map fst (customer_data partner_dict orders)).
Proof.
  induction orders as [|item orders IH] using rev_ind; [constructor|].
  rewrite customer_data_snoc. destruct item as [|o]; [exact IH|].
  destruct (customer_key o) as [k|] eqn:Ek.
  - destruct (customer_step_some (customer_data partner_dict orders) o k Ek)
      as (f & -> & _).
    now apply dd_update_NoDup.
  - now rewrite customer_step_none.
Qed.

(** What the table holds for customer [k]: the number of the customer's
    orders, the total accumulated over them in order, and the customer's
    record. *)
Lemma customer_entry_get (orders : list order_item) (k : Z) :
  let e := dd_get customer_default k (customer_data partner_dict orders) in
  c_count e = length (orders_of_customer k orders)
  /\ c_total e = running_sum (map amount (orders_of_customer k orders))
  /\ (0 < c_count e ->
      c_name e = get_field p_name (partner_dict !! k)
      /\ c_mobile e = get_field p_mobile (partner_dict !! k)
      /\ c_email e = get_field p_email (partner_dict !! k)).
Proof.
  induction orders as [|item orders IH] using rev_ind.
  - simpl. repeat split; simpl in *; lia.
  - cbv zeta in IH |- *. destruct IH as (IHc & IHt & IHn).
    rewrite customer_data_snoc, orders_of_customer_snoc.
    destruct item as [|o]; [rewrite app_nil_r; auto|].
    destruct (customer_key o) as [k'|] eqn:Ek.
    + destruct (customer_step_fields (customer_data partner_dict orders) o k' Ek)
        as (f & -> & Hf).
      rewrite dd_get_update. destruct (decide (k' = k)) as [->|Hne].
      * rewrite bool_decide_eq_true_2 by reflexivity. rewrite Hf. cbn [c_count c_total c_name c_mobile c_email].
        rewrite length_app, map_app. cbn [map].
        rewrite running_sum_snoc, IHc, IHt. repeat split.
      * rewrite bool_decide_eq_false_2 by congruence. rewrite app_nil_r. auto.
    + rewrite customer_step_none by exact Ek.
      rewrite bool_decide_eq_false_2 by discriminate. rewrite app_nil_r. auto.
Qed.

Lemma customer_counts (orders : list order_item) :
  Forall (fun kv => 0 < c_count (snd kv)) (customer_data partner_dict orders).
Proof.
  induction orders as [|item orders IH] using rev_ind; [constructor|].
  rewrite customer_data_snoc. destruct item as [|o]; [exact IH|].
  destruct (customer_key o) as [k|] eqn:Ek.
  - destruct (customer_step_some (customer_data partner_dict orders) o k Ek)
      as (f & -> & _ & Hcnt).
    apply (dd_update_Forall customer_default (fun e => 0 < c_count e)); [|exact IH].
    intros e. rewrite Hcnt. lia.
  - now rewrite customer_step_none.
Qed.

Lemma customer_keys (orders : list order_item) (k : Z) :
  In k (map fst (customer_data partner_dict orders))
  <-> exists o, In o (transactions orders) /\ customer_key o = Some k.
Proof.
  induction orders as [|item orders IH] using rev_ind.
  - simpl. split; [contradiction | intros (o & [] & _)].
  - rewrite customer_data_snoc, transactions_app.
    setoid_rewrite in_app_iff.
    destruct item as [|o].
    + simpl. rewrite IH. split; [intros (o & ? & ?); eauto | intros (o & [?|[]] & ?); eauto].
    + change (transactions [Dict o]) with [o]. cbn [In].
      destruct (customer_key o) as [k'|] eqn:Ek.
      * destruct (customer_step_some (customer_data partner_dict orders) o k' Ek)
          as (f & -> & _).
        rewrite dd_update_keys, IH. split.
        -- intros [-> | (o' & ? & ?)]; [exists o; auto | exists o'; auto].
        -- intros (o' & [? | [<- | []]] & Ho'); [right; eauto | left; congruence].
      * rewrite customer_step_none by exact Ek. rewrite IH. split.
        -- intros (o' & ? & ?); eauto.
        -- intros (o' & [? | [<- | []]] & Ho'); [eauto | congruence].
Qed.

(** The entries count the orders that have a customer, each once. *)
Lemma customer_orders_counted (orders : list order_item) :
  orders_counted (customer_data partner_dict orders)
  = length (List.filter has_customer (transactions orders)).
Proof.
  induction orders as [|item orders IH] using rev_ind; [reflexivity|].
  rewrite customer_data_snoc, transactions_app, List.filter_app, length_app, <- IH.
  destruct item as [|o]; [simpl; lia|].
  change (transactions [Dict o]) with [o]. cbn [List.filter].
  destruct (customer_key o) as [k|] eqn:Ek.
  - destruct (customer_step_some (customer_data partner_dict orders) o k Ek)
      as (f & -> & _ & Hcnt).
    assert (Hc : has_customer o = true) by (apply has_customer_key; eauto).
    rewrite Hc. unfold orders_counted.
    now rewrite (dd_update_sum customer_default c_count 1).
  - rewrite customer_step_none by exact Ek.
    apply no_customer_key in Ek. rewrite Ek. simpl. lia.
Qed.

(** An entry of the table is what the table holds for its key. *)
Lemma customer_entry_In (orders : list order_item) (k : Z) (e : customer_entry) :
  In (k, e) (customer_data partner_dict orders) ->
  c_count e = length (orders_of_customer k orders)
  /\ c_total e = running_sum (map amount (orders_of_customer k orders))
  /\ c_name e = get_field p_name (partner_dict !! k)
  /\ c_mobile e = get_field p_mobile (partner_dict !! k)
  /\ c_email e = get_field p_email (partner_dict !! k).
Proof.
  intros Hin.
  pose proof (customer_counts orders) as Hpos.
  rewrite List.Forall_forall in Hpos. specialize (Hpos _ Hin). cbn [snd] in Hpos.
  pose proof (dd_get_In customer_default k e _ (customer_data_NoDup orders) Hin) as Hget.
  destruct (customer_entry_get orders k) as (Hc & Ht & Hn).
  cbv zeta in Hc, Ht, Hn. rewrite Hget in Hc, Ht, Hn.
  destruct (Hn Hpos) as (? & ? & ?). auto.
Qed.

End CustomerSummary.

Lemma customer_key_some (o : order) (k : Z) :
  customer_key o = Some k
  <-> exists v, resolve_ref (partner_id o) = Some v /\ truthy (Some v) = true /\ key_of v = k.
Proof.
  unfold customer_key. destruct (resolve_ref (partner_id o)) as [v|].
  - destruct (truthy (Some v)) eqn:Et; split.
    + intros [= <-]. exists v. auto.
    + intros (v' & [= <-] & _ & <-). reflexivity.
    + discriminate.
    + intros (v' & [= <-] & Ht & _). congruence.
  - split; [discriminate | intros (v & [=] & _)].
Qed.

Lemma filter_length_all {A : Type} (p : A -> bool) (l : list A) :
  length (List.filter p l) <= length l
  /\ (length (List.filter p l) = length l <-> Forall (fun x => p x = true) l).
Proof.
  induction l as [|x l [IHle IH]]; simpl.
  - split; [lia | split; [constructor | reflexivity]].
  - destruct (p x) eqn:E; simpl.
    + split; [lia|]. split.
      * intros Hl. constructor; [exact E | apply IH; lia].
      * intros Hall. inversion Hall; subst. f_equal. now apply IH.
    + split; [lia|]. split; [lia|].
      intros Hall. inversion Hall; subst. congruence.
Qed.

(** C2 fails, in three ways.  A walk-in refund of 50 leaves the customer
    table empty, so the customer totals (0) exceed the sum of all amounts
    (-50).  With amounts 0.2 and 0.1 for one customer and 0.3 between them
    for another, every order has a customer, yet the customer totals
    0.30000000000000004 and 0.3 add up to more than the sum of the three
    amounts.  And a walk-in order of amount 0 gives equality although it
    has no customer. *)
Lemma customer_totals_exceed_sum :
  (let orders := [Dict (walk_in_order (-50))] in
   customer_data ∅ orders = []
   /\ map amount (transactions orders) = [(-50)%float]
   /\ PrimFloat.ltb (running_sum (map amount (transactions orders)))
                    (running_sum (customer_totals (customer_data ∅ orders))) = true)
  /\ (let orders := [Dict (customer_order 1 0.2); Dict (customer_order 2 0.3);
                     Dict (customer_order 1 0.1)] in
      forallb has_customer (transactions orders) = true
      /\ customer_totals (customer_data ∅ orders)
         = [(0.2 + 0.1)%float; 0.3%float]
      /\ PrimFloat.ltb (running_sum (map amount (transactions orders)))
                       (running_sum (customer_totals (customer_data ∅ orders))) = true)
  /\ (let orders := [Dict (walk_in_order 0)] in
      running_sum (customer_totals (customer_data ∅ orders))
      = running_sum (map amount (transactions orders))
      /\ has_customer (walk_in_order 0) = false).
Proof. cbv zeta. repeat split; vm_compute; reflexivity. Qed.

(** C2, amended: the total of each entry of the customer table is the
    float accumulated from 0.0 by adding, in the order of the list, the
    amounts of exactly the orders of that customer (a missing amount
    counting as 0), and its count is their number; each customer has one
    entry; an order with a customer is counted in an entry, an order
    without one in none.  So the orders counted over all entries are at
    most the orders of the list, with equality exactly when every order
    has a non-null resolved customer id. *)
Theorem customer_totals_by_customer (partner_dict : gmap Z partner)
    (orders : list order_item) :
  let entries := customer_data partner_dict orders in
  Forall (fun kv =>
            c_total (snd kv) = running_sum (map amount (orders_of_customer (fst kv) orders))
            /\ c_count (snd kv) = length (orders_of_customer (fst kv) orders))
         entries
  /\ List.NoDup (map fst entries)
  /\ (forall o, In o (transactions orders) ->
        (has_customer o = true <->
         exists kv, In kv entries /\ In o (orders_of_customer (fst kv) orders)))
  /\ orders_counted entries <= length (transactions orders)
  /\ (orders_counted entries = length (transactions orders)
      <-> Forall (fun o => has_customer o = true) (transactions orders)).
Proof.
  intros entries. unfold entries.
  split; [|split; [|split]].
  - apply List.Forall_forall. intros [k e] Hin. cbn [fst snd].
    destruct (customer_entry_In partner_dict orders k e Hin) as (Hc & Ht & _). auto.
  - apply customer_data_NoDup.
  - intros o Ho. split.
    + intros Hc. apply has_customer_key in Hc as [k Hk].
      assert (Hkey : In k (map fst (customer_data partner_dict orders))).
      { apply customer_keys. eauto. }
      apply in_map_iff in Hkey as ([k' e] & Hfst & Hin). simpl in Hfst. subst k'.
      exists (k, e). split; [exact Hin|]. unfold orders_of_customer.
      apply List.filter_In. split; [exact Ho|]. now apply bool_decide_eq_true_2.
    + intros ([k e] & _ & Hmine). unfold orders_of_customer in Hmine.
      apply List.filter_In in Hmine as [_ Hk]. apply bool_decide_eq_true_1 in Hk.
      apply has_customer_key. eauto.
  - rewrite customer_orders_counted. apply filter_length_all.
Qed.

(** C9: every entry of the customer table has a positive order count, so
    its average is the quotient of total by count and the zero branch of the
    guarded division is never taken; the customers that have an entry are
    exactly those that some order names with a non-null (truthy) resolved
    customer id. *)
Theorem customer_entries_counted (partner_dict : gmap Z partner) (orders : list order_item) :
  Forall (fun kv =>
            0 < c_count (snd kv)
            /\ avg_amount (snd kv)
               = (c_total (snd kv) / float_of_nat (c_count (snd kv)))%float)
         (customer_data partner_dict orders)
  /\ (forall k,
        In k (map fst (customer_data partner_dict orders))
        <-> exists o v,
              In o (transactions orders)
              /\ resolve_ref (partner_id o) = Some v
              /\ truthy (Some v) = true
              /\ key_of v = k).
Proof.
  split.
  - eapply List.Forall_impl; [|apply customer_counts].
    intros [k e] Hpos. simpl in *. split; [exact Hpos|].
    unfold avg_amount. apply Nat.ltb_lt in Hpos. now rewrite Hpos.
  - intros k. rewrite customer_keys. split.
    + intros (o & Hin & Hk). apply customer_key_some in Hk as (v & ? & ? & ?). exists o, v. auto.
    + intros (o & v & Hin & Hr & Ht & Hk). exists o. split; [exact Hin|].
      apply customer_key_some. eauto.
Qed.

(** ** Daily summary *)

Section Dates.

Lemma date_ltb_lt (a b : date) : date_ltb a b = true <-> date_lt a b.
Proof.
  unfold date_ltb, date_lt.
  rewrite !orb_true_iff, !andb_true_iff, !orb_true_iff, !andb_true_iff.
  rewrite !Z.ltb_lt, !Z.eqb_eq. reflexivity.
Qed.

Lemma date_lt_trans (a b c : date) : date_lt a b -> date_lt b c -> date_lt a c.
Proof. unfold date_lt. lia. Qed.

Lemma date_lt_asym (a b : date) : date_lt a b -> ~ date_lt b a.
Proof. unfold date_lt. lia. Qed.

Lemma date_lt_total (a b : date) : a <> b -> ~ date_lt a b -> date_lt b a.
Proof.
  destruct a as [ya ma da], b as [yb mb db]. unfold date_lt. simpl. intros Hne Hn.
  assert (~ (ya = yb /\ ma = mb /\ da = db)) by (intros (-> & -> & ->); congruence).
  lia.
Qed.

(** Ascending, ties allowed: what the insertion keeps. *)
Let date_le (a b : date) : Prop := ~ date_lt b a.

Lemma insert_date_perm (x : date) (l : list date) : Permutation (x :: l) (insert_date x l).
Proof.
  induction l as [|y l IH]; simpl; [reflexivity|].
  destruct (date_ltb x y); [reflexivity|].
  rewrite perm_swap. now constructor.
Qed.

Lemma sorted_perm (l : list date) : Permutation l (sorted l).
Proof.
  induction l as [|x l IH]; simpl; [constructor|].
  rewrite <- insert_date_perm. now constructor.
Qed.

Lemma insert_date_sorted (x : date) (l : list date) :
  Sorted date_le l -> Sorted date_le (insert_date x l).
Proof.
  induction 1 as [|y l Hs IH Hhd]; simpl.
  - repeat constructor.
  - destruct (date_ltb x y) eqn:E.
    + constructor; [now constructor|]. constructor.
      apply date_lt_asym. now apply date_ltb_lt.
    + constructor; [exact IH|].
      assert (Hyx : date_le y x).
      { unfold date_le. rewrite <- date_ltb_lt. congruence. }
      destruct l as [|z l]; simpl; [now constructor|].
      destruct (date_ltb x z); constructor; [exact Hyx | now inversion Hhd].
Qed.

Lemma sorted_sorted (l : list date) : Sorted date_le (sorted l).
Proof.
  induction l as [|x l IH]; simpl; [constructor | now apply insert_date_sorted].
Qed.

Lemma sorted_strict (l : list date) :
  List.NoDup l -> Sorted date_le l -> StronglySorted date_lt l.
Proof.
  intros Hnd Hs. apply Sorted_StronglySorted.
  - intros a b c. apply date_lt_trans.
  - induction Hs as [|x l Hs IH Hhd]; constructor.
    + apply IH. now inversion Hnd.
    + destruct Hhd as [|y l Hxy]; constructor.
      apply date_lt_total; [|exact Hxy].
      inversion Hnd as [|? ? Hnotin _]; subst. intros ->. apply Hnotin. now left.
Qed.

(** [sorted] puts distinct keys in strictly ascending order. *)
Lemma sorted_ascending (l : list date) :
  List.NoDup l -> StronglySorted date_lt (sorted l).
Proof.
  intros Hnd. apply sorted_strict; [|apply sorted_sorted].
  eapply Permutation_NoDup; [apply sorted_perm | exact Hnd].
Qed.

End Dates.

Section DailySummary.

Variable strptime : str -> option datetime.

Let day_of := order_day strptime.

Lemma parses_day (o : order) : parses strptime o = true <-> exists d, day_of o = Some d.
Proof.
  unfold parses, day_of, order_day. destruct (parse_date_order strptime o).
  - split; eauto.
  - split; [discriminate | intros [d [=]]].
Qed.

Lemma date_step_some (data : list (date * day_entry)) (o : order) (d : date) :
  day_of o = Some d ->
  exists f,
    date_step strptime data (Dict o) = dd_update day_default d f data
    /\ (forall e, d_count (f e) = d_count e + 1).
Proof.
  unfold day_of, order_day, date_step.
  destruct (parse_date_order strptime o) as [dt|]; [|discriminate].
  intros [= <-]. eexists. split; reflexivity.
Qed.

Lemma date_step_none (data : list (date * day_entry)) (o : order) :
  day_of o = None -> date_step strptime data (Dict o) = data.
Proof.
  unfold day_of, order_day, date_step.
  destruct (parse_date_order strptime o); [discriminate | reflexivity].
Qed.

Lemma date_data_snoc (orders : list order_item) (item : order_item) :
  date_data strptime (orders ++ [item])
  = date_step strptime (date_data strptime orders) item.
Proof. unfold date_data. now rewrite fold_left_app. Qed.

Lemma date_data_NoDup (orders : list order_item) :
  List.NoDup (map fst (date_data strptime orders)).
Proof.
  induction orders as [|item orders IH] using rev_ind; [constructor|].
  rewrite date_data_snoc. destruct item as [|o]; [exact IH|].
  destruct (day_of o) as [d|] eqn:Ed.
  - destruct (date_step_some (date_data strptime orders) o d Ed) as (f & -> & _).
    now apply dd_update_NoDup.
  - now rewrite date_step_none.
Qed.

Lemma date_data_keys (orders : list order_item) (d : date) :
  In d (map fst (date_data strptime orders))
  <-> exists o, In o (transactions orders) /\ day_of o = Some d.
Proof.
  induction orders as [|item orders IH] using rev_ind.
  - simpl. split; [contradiction | intros (o & [] & _)].
  - rewrite date_data_snoc, transactions_app.
    setoid_rewrite in_app_iff.
    destruct item as [|o].
    + simpl. rewrite IH. split; [intros (o & ? & ?); eauto | intros (o & [?|[]] & ?); eauto].
    + change (transactions [Dict o]) with [o]. cbn [In].
      destruct (day_of o) as [d'|] eqn:Ed.
      * destruct (date_step_some (date_data strptime orders) o d' Ed) as (f & -> & _).
        rewrite dd_update_keys, IH. split.
        -- intros [-> | (o' & ? & ?)]; [exists o; auto | exists o'; auto].
        -- intros (o' & [? | [<- | []]] & Ho'); [right; eauto | left; congruence].
      * rewrite date_step_none by exact Ed. rewrite IH. split.
        -- intros (o' & ? & ?); eauto.
        -- intros (o' & [? | [<- | []]] & Ho'); [eauto | congruence].
Qed.

(** The count stored for a day is the number of orders parsed to it. *)
Lemma date_data_count (orders : list order_item) (d : date) :
  d_count (dd_get day_default d (date_data strptime orders))
  = length (List.filter (fun o => bool_decide (day_of o = Some d)) (transactions orders)).
Proof.
  induction orders as [|item orders IH] using rev_ind; [reflexivity|].
  rewrite date_data_snoc, transactions_app, List.filter_app, length_app, <- IH.
  destruct item as [|o]; [simpl; lia|].
  change (transactions [Dict o]) with [o]. cbn [List.filter].
  destruct (day_of o) as [d'|] eqn:Ed.
  - destruct (date_step_some (date_data strptime orders) o d' Ed) as (f & -> & Hcnt).
    rewrite dd_get_update. destruct (decide (d' = d)) as [->|Hne].
    + rewrite bool_decide_eq_true_2 by reflexivity. rewrite Hcnt. reflexivity.
    + rewrite bool_decide_eq_false_2 by congruence. simpl. lia.
  - rewrite date_step_none by exact Ed.
    rewrite bool_decide_eq_false_2 by discriminate. simpl. lia.
Qed.

(** The counts stored add up to the number of orders that parse. *)
Lemma date_data_total_count (orders : list order_item) :
  fold_right (fun kv s => d_count (snd kv) + s) 0 (date_data strptime orders)
  = length (List.filter (parses strptime) (transactions orders)).
Proof.
  induction orders as [|item orders IH] using rev_ind; [reflexivity|].
  rewrite date_data_snoc, transactions_app, List.filter_app, length_app, <- IH.
  destruct item as [|o]; [simpl; lia|].
  change (transactions [Dict o]) with [o]. cbn [List.filter].
  destruct (day_of o) as [d|] eqn:Ed.
  - destruct (date_step_some (date_data strptime orders) o d Ed) as (f & -> & Hcnt).
    assert (Hp : parses strptime o = true) by (apply parses_day; eauto).
    rewrite Hp. simpl length.
    generalize (date_data strptime orders). intros data.
    induction data as [|[k0 v0] data IHd]; simpl.
    + rewrite Hcnt. simpl. lia.
    + destruct (decide (d = k0)); simpl; [rewrite Hcnt | rewrite IHd]; lia.
  - rewrite date_step_none by exact Ed.
    assert (Hp : parses strptime o = false).
    { destruct (parses strptime o) eqn:E; [|reflexivity].
      apply parses_day in E as [d E]. congruence. }
    rewrite Hp. simpl. lia.
Qed.

Lemma sum_by_key (data : list (date * day_entry)) :
  List.NoDup (map fst data) ->
  fold_right (fun k s => d_count (dd_get day_default k data) + s) 0 (map fst data)
  = fold_right (fun kv s => d_count (snd kv) + s) 0 data.
Proof.
  induction data as [|[k0 v0] data IH]; simpl; intros Hnd; [reflexivity|].
  inversion Hnd as [|? ? Hnotin Hnd']; subst.
  rewrite decide_True by reflexivity. f_equal.
  rewrite <- IH by exact Hnd'.
  clear IH Hnd Hnd'. induction (map fst data) as [|k ks IHk]; simpl; [reflexivity|].
  rewrite decide_False by (intros ->; apply Hnotin; now left).
  f_equal. apply IHk. intros Hin. apply Hnotin. now right.
Qed.

Lemma sum_perm {A : Type} (m : A -> nat) (l l' : list A) :
  Permutation l l' ->
  fold_right (fun x s => m x + s) 0 l = fold_right (fun x s => m x + s) 0 l'.
Proof. induction 1; simpl; lia. Qed.

Lemma enumerate_snd {A : Type} (l : list A) (start : nat) :
  map snd (enumerate l start) = l.
Proof.
  unfold enumerate. revert start. induction l as [|x l IH]; intros start; simpl;
    [reflexivity | now rewrite IH].
Qed.

Lemma analysis_rows_dates (orders : list order_item) :
  map ar_date (analysis_rows strptime orders) = sorted_dates strptime orders.
Proof.
  unfold analysis_rows. rewrite map_map.
  rewrite <- (enumerate_snd (sorted_dates strptime orders) 4) at 2.
  apply map_ext. now intros [row_idx d].
Qed.

Lemma analysis_rows_counts (orders : list order_item) :
  sum_order_counts (analysis_rows strptime orders)
  = fold_right (fun k s => d_count (dd_get day_default k (date_data strptime orders)) + s) 0
               (sorted_dates strptime orders).
Proof.
  unfold sum_order_counts, analysis_rows.
  rewrite <- (enumerate_snd (sorted_dates strptime orders) 4) at 2.
  induction (enumerate (sorted_dates strptime orders) 4) as [|[row_idx d] l IH]; simpl;
    [reflexivity | now rewrite IH].
Qed.

End DailySummary.

(** C8: whatever the parser accepts, the rows of the daily table count
    exactly the orders whose timestamp parses.  The order counts of the rows
    add up to the number of such orders; a day has a row exactly when some
    order parses to it; the count of a row is the number of orders that parse
    to its day; and the rows are in strictly ascending order of date.  An
    order whose timestamp does not parse changes nothing and raises
    nothing. *)
Theorem daily_rows_count_parsed (strptime : str -> option datetime)
    (orders : list order_item) :
  let rows := analysis_rows strptime orders in
  sum_order_counts rows = length (List.filter (parses strptime) (transactions orders))
  /\ (forall d,
        In d (map ar_date rows)
        <-> exists o, In o (transactions orders) /\ order_day strptime o = Some d)
  /\ Forall (fun r =>
               d_count (ar_entry r)
               = length (List.filter
                           (fun o => bool_decide (order_day strptime o = Some (ar_date r)))
                           (transactions orders)))
            rows
  /\ StronglySorted date_lt (map ar_date rows)
  /\ (forall before o after,
        parses strptime o = false ->
        analysis_rows strptime (before ++ Dict o :: after)
        = analysis_rows strptime (before ++ after)).
Proof.
  intros rows. unfold rows.
  pose proof (date_data_NoDup strptime orders) as Hnd.
  pose proof (sorted_perm (map fst (date_data strptime orders))) as Hperm.
  split; [|split; [|split; [|split]]].
  - rewrite analysis_rows_counts. unfold sorted_dates.
    rewrite <- (sum_perm (fun k => d_count (dd_get day_default k (date_data strptime orders)))
                  _ _ Hperm).
    rewrite sum_by_key by exact Hnd. apply date_data_total_count.
  - intros d. rewrite analysis_rows_dates. unfold sorted_dates.
    rewrite <- date_data_keys. split; apply Permutation_in; [symmetry|]; exact Hperm.
  - unfold analysis_rows. apply List.Forall_forall. intros r Hr.
    apply in_map_iff in Hr as ([row_idx d] & <- & _). simpl. apply date_data_count.
  - rewrite analysis_rows_dates. now apply sorted_ascending.
  - intros before o after Hp.
    assert (Hsame : date_data strptime (before ++ Dict o :: after)
                    = date_data strptime (before ++ after)).
    { unfold date_data. rewrite !fold_left_app. simpl.
      unfold date_step at 2. unfold parses in Hp.
      destruct (parse_date_order strptime o); [discriminate | reflexivity]. }
    unfold analysis_rows, sorted_dates. now rewrite Hsame.
Qed.

Lemma daily_rows_count_parsed_applied :
  sum_order_counts
    (analysis_rows sample_strptime
       [Dict (customer_order 8 100); NotDict; Dict (walk_in_order 50);
        Dict {| partner_id := RefNone; config_id := RefNone; amount_total := None;
                date_order := DateNotStr; pos_reference := lit "" |}])
  = 2.
Proof.
  exact (proj1 (daily_rows_count_parsed sample_strptime
    [Dict (customer_order 8 100); NotDict; Dict (walk_in_order 50);
     Dict {| partner_id := RefNone; config_id := RefNone; amount_total := None;
             date_order := DateNotStr; pos_reference := lit "" |}])).
Defined.

(** ** Walk-in transactions *)

(** C10: an order whose customer field is False or the integer 0 goes
    through the bare-integer branch of the normalization, which yields the
    value itself; the value is falsy, so the order adds no id to the ids of
    the customers to fetch, changes nothing in the customer table, and its
    customer id, name, mobile and email cells in the detail sheet are
    empty. *)
Theorem false_or_zero_is_walk_in (o : order) :
  partner_id o = RefInt (SBool false) \/ partner_id o = RefInt (SInt 0) ->
  (exists v, partner_id o = RefInt v /\ resolve_ref (partner_id o) = Some v)
  /\ truthy (resolve_ref (partner_id o)) = false
  /\ (forall before after,
        collect_ids partner_id (before ++ Dict o :: after)
        = collect_ids partner_id (before ++ after))
  /\ (forall partner_dict before after,
        customer_data partner_dict (before ++ Dict o :: after)
        = customer_data partner_dict (before ++ after))
  /\ (forall strptime partner_dict config_dict row_num,
        let row := write_detail_row strptime partner_dict config_dict row_num o in
        dr_customer_id row = blank
        /\ dr_customer_name row = blank
        /\ dr_mobile row = blank
        /\ dr_email row = blank).
Proof.
  intros Hfield.
  assert (Hres : exists v, partner_id o = RefInt v /\ resolve_ref (partner_id o) = Some v
                           /\ truthy (Some v) = false).
  { destruct Hfield as [H | H]; rewrite H; eexists; repeat split. }
  destruct Hres as (v & Hp & Hr & Ht).
  split; [eauto|]. split; [now rewrite Hr|]. split; [|split].
  - intros before after. unfold collect_ids. rewrite !flat_map_app. f_equal.
    cbn [flat_map]. unfold ids_of_item at 1. now rewrite Hr, Ht.
  - intros partner_dict before after. unfold customer_data. rewrite !fold_left_app.
    cbn [fold_left]. unfold customer_step at 2. now rewrite Hr, Ht.
  - intros strptime partner_dict config_dict row_num. cbv zeta.
    unfold write_detail_row. cbn [dr_customer_id dr_customer_name dr_mobile dr_email].
    unfold id_or_blank, lookup_ref. rewrite Hr, Ht. repeat split.
Qed.

Lemma false_or_zero_is_walk_in_applied :
  truthy (resolve_ref (partner_id (walk_in_order 50))) = false.
Proof.
  exact (proj1 (proj2 (false_or_zero_is_walk_in (walk_in_order 50) (or_introl eq_refl)))).
Defined.

(** ** Total rows *)

(** C1 at the inputs where it breaks.  With no order, the formula of the
    detail sheet is written to H5 and sums H5:H4: the first corner of its
    range is the formula's own cell and the second is the header cell.  With
    one walk-in order the customer table is empty and the two formulas of the
    customer sheet, written to E5 and F5, sum E5:E4 and F5:F4. *)
Theorem total_formula_without_rows :
  f_text (detail_total []) = lit "=SUM('Order Details'!H5:H4)"
  /\ f_text (detail_total []) = sum_formula (lit "Order Details") (lit "H") 5 4
  /\ sheet_row (f_row (detail_total [])) = 5
  /\ f_col (detail_total []) = 7
  /\ sheet_row header_row = 4
  /\ customer_data ∅ [Dict (walk_in_order 50)] = []
  /\ f_text (fst (summary_totals (customer_data ∅ [Dict (walk_in_order 50)])))
     = lit "=SUM('Customer Summary'!E5:E4)"
  /\ f_text (snd (summary_totals (customer_data ∅ [Dict (walk_in_order 50)])))
     = lit "=SUM('Customer Summary'!F5:F4)"
  /\ sheet_row (f_row (fst (summary_totals (customer_data ∅ [Dict (walk_in_order 50)])))) = 5.
Proof. repeat split. Qed.

Section TotalRows.

Lemma enumerate_fst {A : Type} (l : list A) (start : nat) :
  map fst (enumerate l start) = seq start (length l).
Proof.
  unfold enumerate. revert start. induction l as [|x l IH]; intros start; simpl;
    [reflexivity | now rewrite IH].
Qed.

Lemma enumerate_cons {A : Type} (x : A) (l : list A) (start : nat) :
  enumerate (x :: l) start = (start, x) :: enumerate l (S start).
Proof. reflexivity. Qed.

Variable strptime : str -> option datetime.
Variable partner_dict : gmap Z partner.
Variable config_dict : gmap Z terminal.

Let rows_from (start : nat) (orders : list order_item) : list detail_row :=
  flat_map (fun '(row_num, item) =>
              match item with
              | NotDict => []
              | Dict o => [write_detail_row strptime partner_dict config_dict row_num o]
              end)
           (enumerate orders start).

Lemma rows_from_bounds (orders : list order_item) (start : nat) :
  Forall (fun r => start <= dr_row r < start + length orders) (rows_from start orders).
Proof.
  revert start. induction orders as [|item orders IH]; intros start; [constructor|].
  unfold rows_from. rewrite enumerate_cons. cbn [flat_map].
  apply Forall_app. split.
  - destruct item; repeat constructor; simpl; lia.
  - eapply List.Forall_impl; [|apply (IH (S start))]. simpl. intros r. lia.
Qed.

Lemma rows_from_all (orders : list order_item) (start : nat) :
  Forall (fun item => item <> NotDict) orders ->
  map dr_row (rows_from start orders) = seq start (length orders).
Proof.
  intros H. revert start. induction H as [|item orders Hi _ IH]; intros start; [reflexivity|].
  unfold rows_from. rewrite enumerate_cons. cbn [flat_map].
  destruct item as [|o]; [congruence|]. simpl. f_equal. apply IH.
Qed.

End TotalRows.

(** The total formulas in general.  The formula of the detail sheet sums
    column H from spreadsheet row 5 to spreadsheet row N + 4 and sits in the
    row below; every row the loop writes lies in that range, and when every
    element of the order list is a dictionary the rows written are the N rows
    of the range, so for N >= 1 the range is exactly the data rows.  The same
    holds for columns E and F of the customer sheet and its M entries. *)
Theorem total_formulas_span_rows (strptime : str -> option datetime)
    (partner_dict : gmap Z partner) (config_dict : gmap Z terminal)
    (orders : list order_item) :
  let n := length orders in
  let data := customer_data partner_dict orders in
  let m := length data in
  f_text (detail_total orders)
  = sum_formula (lit "Order Details") (lit "H") (sheet_row 4) (sheet_row (n + 3))
  /\ f_row (detail_total orders) = n + 4
  /\ Forall (fun r => 4 <= dr_row r <= n + 3)
            (detail_rows strptime partner_dict config_dict orders)
  /\ (Forall (fun item => item <> NotDict) orders ->
      map dr_row (detail_rows strptime partner_dict config_dict orders) = seq 4 n)
  /\ f_text (fst (summary_totals data))
     = sum_formula (lit "Customer Summary") (lit "E") (sheet_row 4) (sheet_row (m + 3))
  /\ f_text (snd (summary_totals data))
     = sum_formula (lit "Customer Summary") (lit "F") (sheet_row 4) (sheet_row (m + 3))
  /\ f_row (fst (summary_totals data)) = m + 4
  /\ map sr_row (summary_rows data) = seq 4 m.
Proof.
  intros n data m. unfold sheet_row.
  replace (n + 3 + 1) with (n + 4) by lia. replace (m + 3 + 1) with (m + 4) by lia.
  repeat split.
  - eapply List.Forall_impl; [|apply (rows_from_bounds strptime partner_dict config_dict orders 4)].
    simpl. intros r. unfold n. lia.
  - intros H. apply (rows_from_all strptime partner_dict config_dict orders 4 H).
  - unfold summary_rows, m. rewrite <- (enumerate_fst data 4), map_map.
    apply map_ext. now intros [row_idx [k e]].
Qed.

Lemma total_formulas_span_rows_applied :
  map dr_row (detail_rows sample_strptime ∅ ∅
                [Dict (customer_order 8 100); Dict (walk_in_order 50)])
  = [4; 5].
Proof.
  apply (proj1 (proj2 (proj2 (proj2
    (total_formulas_span_rows sample_strptime ∅ ∅
       [Dict (customer_order 8 100); Dict (walk_in_order 50)]))))).
  repeat constructor; discriminate.
Defined.

(** ** Reference fields *)

(** Normalization is total and idempotent: it yields an id or None for
    every shape, and normalizing the bare id it yields gives the same id. *)
Theorem resolve_ref_idempotent (field : ref_field) :
  match resolve_ref field with
  | Some v => resolve_ref (RefInt v) = Some v
  | None => field = RefNone \/ field = RefEmptyList
  end.
Proof. destruct field; simpl; auto. Qed.

(** ** The scenario of the specification *)

(** Two orders of customer 8 (100 and 150) on the first day and a walk-in
    order (50) on the second: one customer entry with count 2, total 250 and
    average 125,
    two daily rows in date order with counts 2 and 1 and totals 250 and 50,
    three detail rows, and total formulas over H5:H7 and E5:E5. *)
Theorem three_order_scenario :
  let orders := [Dict (customer_order 8 100); Dict (customer_order 8 150);
                 Dict (walk_in_order 50)] in
  let book := generate_excel sample_strptime ∅ ∅ orders in
  map (fun r => (sr_customer_id r, c_count (sr_entry r), c_total (sr_entry r), sr_avg r))
      (summary book)
  = [(8%Z, 2, 250%float, 125%float)]
  /\ map (fun r => (day (ar_date r), d_count (ar_entry r), d_total (ar_entry r), ar_avg r))
         (analysis book)
     = [(1%Z, 2, 250%float, 125%float); (2%Z, 1, 50%float, 50%float)]
  /\ map dr_row (detail book) = [4; 5; 6]
  /\ f_text (detail_formula book) = lit "=SUM('Order Details'!H5:H7)"
  /\ f_text (fst (summary_formulas book)) = lit "=SUM('Customer Summary'!E5:E5)".
Proof. cbv zeta. repeat split; vm_compute; reflexivity. Qed.

(** ** More on phone normalization *)

Section MobileShape.

Context `{Unicode}.

Lemma filter_digits_all (d : str) :
  Forall (fun c => is_digit c = true) d -> List.filter is_digit d = d.
Proof.
  induction 1 as [|c d Hc _ IH]; simpl; [reflexivity|]. now rewrite Hc, IH.
Qed.

Lemma digits_only_all (s : str) : Forall (fun c => is_digit c = true) (digits_only s).
Proof.
  unfold digits_only. induction s as [|c s IH]; simpl; [constructor|].
  destruct (is_digit c) eqn:E; [constructor|]; assumption.
Qed.

Lemma drop_leading_zero_all (s : str) :
  Forall (fun c => is_digit c = true) s ->
  Forall (fun c => is_digit c = true) (drop_leading_zero s).
Proof.
  intros Hall. destruct Hall as [|c s Hc Hs]; [constructor|].
  simpl. destruct (c =? 48)%N; [exact Hs | now constructor].
Qed.

(** A number already in the +91 form is kept. *)
Lemma format_mobile_plus91 (d : str) :
  length d = 10 ->
  Forall (fun c => is_digit c = true) d ->
  format_mobile_number (lit "+91" ++ d) = lit "+91" ++ d.
Proof.
  intros Hlen Hd. unfold format_mobile_number.
  change (lit "+91" ++ d) with (43%N :: 57%N :: 49%N :: d).
  cbn [List.filter]. rewrite !is_digit_ascii by reflexivity.
  change (ascii_digit 43%N) with false. change (ascii_digit 57%N) with true.
  change (ascii_digit 49%N) with true. cbv iota.
  rewrite (filter_digits_all d Hd).
  change (startswith (lit "0") (57%N :: 49%N :: d)) with false. cbv iota.
  change (startswith (lit "91") (57%N :: 49%N :: d)) with true.
  cbn [negb andb length]. rewrite Hlen. reflexivity.
Qed.

(** The function in terms of the digits kept. *)
Lemma format_mobile_number_digits (c0 : char) (rest : str) :
  let mobile := c0 :: rest in
  let digits := drop_leading_zero (digits_only mobile) in
  Forall (fun c => is_digit c = true) digits
  /\ format_mobile_number mobile
     = if negb (startswith (lit "91") digits) && (length digits =? 10)%nat
       then lit "+91" ++ digits
       else if (length digits =? 12)%nat && startswith (lit "91") digits
            then lit "+" ++ digits else mobile.
Proof.
  intros mobile digits. split.
  - apply drop_leading_zero_all, digits_only_all.
  - unfold format_mobile_number, mobile, digits, digits_only. now rewrite startswith_zero.
Qed.

(** Twelve digits that start with 91 are 91 and ten digits. *)
Lemma twelve_digits_91 (digits : str) :
  Forall (fun c => is_digit c = true) digits ->
  (length digits =? 12)%nat && startswith (lit "91") digits = true ->
  exists d, digits = lit "91" ++ d /\ length d = 10 /\ Forall (fun c => is_digit c = true) d.
Proof.
  intros Hall E. apply andb_true_iff in E as [Hl H91]. apply Nat.eqb_eq in Hl.
  apply startswith_iff in H91 as [d Hd]. exists d. rewrite Hd in Hl, Hall.
  simpl in Hl. split; [exact Hd|]. split; [lia|].
  now inversion Hall as [|? ? _ H1]; inversion H1.
Qed.

End MobileShape.

(** The result of the normalization is the input itself or +91 followed by
    exactly ten characters that the pattern [\d] matches, the decimal
    digits of any script. *)
Theorem format_mobile_number_shape `{Unicode} (mobile : str) :
  format_mobile_number mobile = mobile
  \/ exists d,
       length d = 10
       /\ Forall (fun c => is_digit c = true) d
       /\ format_mobile_number mobile = lit "+91" ++ d.
Proof.
  destruct mobile as [|c0 rest]; [now left|].
  destruct (format_mobile_number_digits c0 rest) as [Hall Hfmt]. cbv zeta in Hall, Hfmt.
  rewrite Hfmt.
  destruct (negb (startswith (lit "91") _) && (length _ =? 10)%nat) eqn:E1.
  - right. eexists. apply andb_true_iff in E1 as [_ Hl]. apply Nat.eqb_eq in Hl. eauto.
  - destruct ((length _ =? 12)%nat && startswith (lit "91") _) eqn:E2; [|now left].
    right. destruct (twelve_digits_91 _ Hall E2) as (d & -> & Hl & Hd).
    exists d. auto.
Qed.

(** Normalizing twice is normalizing once: the numbers stored in the
    customer map are fixed points. *)
Theorem format_mobile_number_idempotent `{Unicode} (mobile : str) :
  format_mobile_number (format_mobile_number mobile) = format_mobile_number mobile.
Proof.
  destruct mobile as [|c0 rest]; [reflexivity|].
  destruct (format_mobile_number_digits c0 rest) as [Hall Hfmt]. cbv zeta in Hall, Hfmt.
  destruct (negb (startswith (lit "91") _) && (length _ =? 10)%nat) eqn:E1.
  - rewrite Hfmt. apply andb_true_iff in E1 as [_ Hl]. apply Nat.eqb_eq in Hl.
    now apply format_mobile_plus91.
  - destruct ((length _ =? 12)%nat && startswith (lit "91") _) eqn:E2.
    + rewrite Hfmt. destruct (twelve_digits_91 _ Hall E2) as (d & -> & Hl & Hd).
      now apply (format_mobile_plus91 d).
    + now rewrite Hfmt.
Qed.

(** ** More on the terminal resolver *)

(** The terminals returned are exactly the dictionaries of the reply that
    the filter accepts, and none when the call raises; and a name is
    accepted only if one of the branch's keywords occurs in it, letter case
    and surrounding whitespace put aside. *)
Theorem fetch_pos_configs_sound `{Unicode} :
  (forall configs branch_name c,
     In c (fetch_pos_configs (Returned configs) branch_name)
     <-> In (Config c) configs /\ accepts branch_name (cfg_name c) = true)
  /\ (forall branch_name raw_name,
        accepts branch_name raw_name = true ->
        exists kw,
          In kw (branch_keywords branch_name)
          /\ occurs_in (lower kw) (lower (strip raw_name)))
  /\ (forall branch_name, fetch_pos_configs Raised branch_name = []).
Proof.
  split; [|split; [|reflexivity]].
  - intros configs branch_name c. apply filter_configs_In.
  - intros branch_name raw_name. unfold accepts, keep_config.
    set (name := lower (strip raw_name)). set (kws := branch_keywords branch_name).
    assert (Htok : any (token_in name) kws = true ->
                   exists kw, In kw kws /\ occurs_in (lower kw) name).
    { intros Hany. apply any_iff in Hany as (kw & Hin & Hany). exists kw. split; [exact Hin|].
      apply token_in_iff in Hany as (b & a & -> & _). now exists b, a. }
    assert (Hst : any (fun kw => startswith (lower kw) name) kws = true ->
                  exists kw, In kw kws /\ occurs_in (lower kw) name).
    { intros Hany. apply any_iff in Hany as (kw & Hin & Hany). exists kw. split; [exact Hin|].
      apply startswith_iff in Hany as [r ->]. now exists [], r. }
    destruct name as [|c name']; [discriminate|].
    destruct (contains (lit "local expo") (c :: name') && PyStr.eqb branch_name (lit "Saree Trails")).
    + exact Htok.
    + intros Hor. apply orb_true_iff in Hor as [Hor | Hor]; auto.
Qed.

Lemma fetch_pos_configs_sound_applied :
  exists kw,
    In kw (branch_keywords (lit "Vizag"))
    /\ occurs_in (@lower ascii_only kw) (@lower ascii_only (@strip ascii_only (lit "  Expo VZG 2 "))).
Proof.
  apply (proj1 (proj2 (@fetch_pos_configs_sound ascii_only)) (lit "Vizag")). reflexivity.
Defined.

(** ** More on the id scan *)

Section ScanOutcomes.

Variable search : nat -> nat -> rpc (list Z).
Variable limit : nat.

Lemma scan_loop_endless :
  (forall offset, exists x batch, search offset limit = Returned (x :: batch)) ->
  forall fuel st, scan_loop fuel search limit st = None.
Proof.
  intros Hpage. induction fuel as [|fuel IH]; intros st; [reflexivity|].
  simpl. destruct (Hpage (offset st)) as (x & batch & ->). apply IH.
Qed.

End ScanOutcomes.

(** The loop has no bound of its own: over a remote service that answers
    every query with a page that is not empty, it never ends, however many
    iterations it is given. *)
Theorem fetch_order_ids_never_ends (search : nat -> nat -> rpc (list Z)) (limit : nat) :
  (forall offset, exists x batch, search offset limit = Returned (x :: batch)) ->
  forall fuel, fetch_order_ids fuel search limit = None.
Proof.
  intros Hpage fuel. unfold fetch_order_ids.
  now rewrite (scan_loop_endless search limit Hpage fuel scan_start).
Qed.

Lemma fetch_order_ids_never_ends_applied :
  fetch_order_ids 1000 endless_search 50 = None.
Proof.
  apply (fetch_order_ids_never_ends endless_search 50).
  intros offset. exists 1%Z, []. reflexivity.
Defined.

(** The scan returns all or nothing: a result that is not empty is the
    pages received up to the first empty page, put end to end; when a search
    raises, the ids of the pages received before are dropped and the result
    is empty. *)
Theorem fetch_order_ids_all_or_nothing (search : nat -> nat -> rpc (list Z))
    (limit fuel : nat) (ids : list Z) :
  fetch_order_ids fuel search limit = Some ids ->
  (scan_loop fuel search limit scan_start = Some Raised /\ ids = [])
  \/ (exists ps,
        search_pages fuel search limit = Some (ps ++ [[]])
        /\ Forall (fun p => p <> []) ps
        /\ ids = concat ps).
Proof.
  unfold fetch_order_ids, search_pages.
  destruct (scan_loop fuel search limit scan_start) as [[st|]|] eqn:E; [| |discriminate].
  - intros [= <-]. right. apply scan_loop_pages in E as (ps & Hp & Hne & Hids).
    exists ps. simpl in Hp, Hids. rewrite Hp. auto.
  - intros [= <-]. now left.
Qed.

Lemma fetch_order_ids_all_or_nothing_applied :
  (scan_loop 3 (consistent_search [7]%Z) 2 scan_start = Some Raised /\ [7]%Z = [])
  \/ (exists ps,
        search_pages 3 (consistent_search [7]%Z) 2 = Some (ps ++ [[]])
        /\ Forall (fun p => p <> []) ps
        /\ [7]%Z = concat ps).
Proof. apply (fetch_order_ids_all_or_nothing (consistent_search [7]%Z) 2 3). reflexivity. Defined.

(** ** More on the record read *)

Section Chunks.

Variable size : nat.
Hypothesis size_pos : 0 < size.
Variable ids : list Z.

Let count : nat := (length ids + size - 1) / size.

Lemma chunk_count_covers : length ids <= count * size /\ count * size < length ids + size.
Proof using size_pos.
  unfold count.
  pose proof (Nat.div_mod_eq (length ids + size - 1) size) as Hdm.
  pose proof (Nat.mod_upper_bound (length ids + size - 1) size ltac:(lia)) as Hmod.
  split; nia.
Qed.

Lemma slices_prefix (m : nat) :
  concat (map (fun k => slice ids (k * size) size) (seq 0 m)) = firstn (m * size) ids.
Proof using Type.
  clear size_pos. induction m as [|m IH]; [reflexivity|].
  rewrite seq_S, map_app, concat_app, IH. simpl.
  rewrite app_nil_r. unfold slice. rewrite take_take_drop. f_equal. lia.
Qed.

Lemma chunks_as_slices :
  chunks size ids = map (fun k => slice ids (k * size) size) (seq 0 count).
Proof. unfold chunks, range_step. now rewrite map_map. Qed.

Lemma chunks_concat : concat (chunks size ids) = ids.
Proof using size_pos.
  rewrite chunks_as_slices, slices_prefix.
  apply firstn_all2. apply chunk_count_covers.
Qed.

Lemma chunks_sizes : Forall (fun c => 0 < length c <= size) (chunks size ids).
Proof using size_pos.
  rewrite chunks_as_slices. apply List.Forall_forall. intros c Hc.
  apply in_map_iff in Hc as (k & <- & Hk). apply in_seq in Hk.
  unfold slice. rewrite length_firstn, length_skipn.
  pose proof chunk_count_covers as [_ Hlast].
  assert ((k + 1) * size <= count * size) by (apply Nat.mul_le_mono_r; lia).
  lia.
Qed.

End Chunks.

(** With a positive batch size the chunks asked for are the id list cut in
    order into pieces of at most that size, none of them empty, ceil(n /
    size) of them: every id is asked for once and no call is made for
    nothing. *)
Theorem chunks_partition (size : nat) (ids : list Z) :
  0 < size ->
  concat (chunks size ids) = ids
  /\ Forall (fun c => 0 < length c <= size) (chunks size ids)
  /\ length (chunks size ids) = (length ids + size - 1) / size.
Proof.
  intros Hsize. split; [now apply chunks_concat|]. split; [now apply chunks_sizes|].
  unfold chunks, range_step. now rewrite !length_map, length_seq.
Qed.

Lemma chunks_partition_applied :
  concat (chunks 2 [5; 6; 7]%Z) = [5; 6; 7]%Z.
Proof. apply (chunks_partition 2 [5; 6; 7]%Z). lia. Defined.

(** When the remote service answers every chunk with the records of its
    ids, the read returns one record per id, in the order of the ids,
    whatever the positive batch size; with a batch size of 0 it returns
    nothing, whatever the service answers. *)
Theorem fetch_order_details_complete (record : Z -> order_item) (size : nat) (ids : list Z) :
  (0 < size -> fetch_order_details (read_all record) size ids = map record ids)
  /\ (forall read, fetch_order_details read 0 ids = []).
Proof.
  split; [|reflexivity].
  intros Hsize. unfold fetch_order_details, read_in_batches.
  destruct size as [|n]; [lia|].
  rewrite read_fold_all by (apply List.Forall_forall; intros i _; discriminate).
  cbn [app]. change (fun i => records_of (read_all record (slice ids i (S n))))
    with (fun i => map record (slice ids i (S n))).
  rewrite <- (chunks_flat_map (S n) ids (map record)).
  rewrite <- (chunks_concat (S n) Hsize ids) at 2.
  induction (chunks (S n) ids) as [|c l IH]; simpl; [reflexivity|].
  now rewrite map_app, IH.
Qed.

Lemma fetch_order_details_complete_applied :
  fetch_order_details (read_all (fun id => Dict (customer_order id 10))) 2 [5; 6; 7]%Z
  = map (fun id => Dict (customer_order id 10)) [5; 6; 7]%Z.
Proof.
  apply (proj1 (fetch_order_details_complete (fun id => Dict (customer_order id 10))
                  2 [5; 6; 7]%Z)).
  lia.
Defined.

(** ** Entity joiner *)

Section RelatedData.

Context {tables : Unicode}.

Lemma unique_ids_In (ids : list Z) (k : Z) : In k (unique_ids ids) <-> In k ids.
Proof.
  unfold unique_ids.
  rewrite <- !list_elem_of_In, elem_of_elements, elem_of_list_to_set. reflexivity.
Qed.

Lemma unique_ids_NoDup (ids : list Z) : List.NoDup (unique_ids ids).
Proof. unfold unique_ids. apply NoDup_ListNoDup, NoDup_elements. Qed.


Lemma ids_of_partner (o : order) :
  ids_of_item partner_id (Dict o)
  = match customer_key o with Some k => [k] | None => [] end.
Proof.
  unfold ids_of_item, customer_key.
  destruct (resolve_ref (partner_id o)) as [v|]; [|reflexivity].
  now destruct (truthy (Some v)).
Qed.

Lemma collect_partner_ids_In (orders : list order_item) (k : Z) :
  In k (collect_ids partner_id orders)
  <-> exists o, In o (transactions orders) /\ customer_key o = Some k.
Proof.
  unfold collect_ids, transactions. rewrite in_flat_map. split.
  - intros ([|o] & Hin & Hk); [destruct Hk|]. rewrite ids_of_partner in Hk.
    exists o. split; [apply in_flat_map; exists (Dict o); split; [exact Hin | now left]|].
    destruct (customer_key o); [destruct Hk as [<- | []]; reflexivity | destruct Hk].
  - intros (o & Hin & Hk). apply in_flat_map in Hin as ([|o'] & Hin & Ho); [destruct Ho|].
    destruct Ho as [<- | []]. exists (Dict o'). split; [exact Hin|].
    rewrite ids_of_partner, Hk. now left.
Qed.

Lemma index_by_snoc {A : Type} (key : A -> Z) (l : list A) (x : A) :
  index_by key (l ++ [x]) = <[key x := x]> (index_by key l).
Proof. unfold index_by. now rewrite fold_left_app. Qed.

Lemma index_by_lookup {A : Type} (key : A -> Z) (l : list A) (k : Z) (r : A) :
  index_by key l !! k = Some r -> In r l /\ key r = k.
Proof.
  induction l as [|x l IH] using rev_ind.
  - unfold index_by. simpl. rewrite lookup_empty. discriminate.
  - rewrite index_by_snoc. destruct (decide (key x = k)) as [<-|Hne].
    + rewrite lookup_insert_eq. intros [= <-]. split; [apply in_app_iff; right; now left | reflexivity].
    + rewrite lookup_insert_ne by exact Hne. intros H. apply IH in H as [Hin Hk].
      split; [apply in_app_iff; now left | exact Hk].
Qed.

(** Every record is found under its id: the record itself, or a later one
    with the same id. *)
Lemma index_by_found {A : Type} (key : A -> Z) (l : list A) (r : A) :
  In r l -> exists r', index_by key l !! key r = Some r' /\ key r' = key r.
Proof.
  induction l as [|x l IH] using rev_ind; [intros []|].
  rewrite index_by_snoc. intros Hin. destruct (decide (key x = key r)) as [E|Hne].
  - exists x. rewrite <- E, lookup_insert_eq. auto.
  - rewrite lookup_insert_ne by exact Hne. apply IH.
    apply in_app_iff in Hin as [Hin | [-> | []]]; [exact Hin | congruence].
Qed.

Lemma format_mobile_field_fixed (m : char_field) :
  exists s, format_mobile_field m = Str s /\ format_mobile_number s = s.
Proof.
  destruct m as [mobile|]; [|now exists (lit "")].
  exists (format_mobile_number mobile). split; [reflexivity|].
  destruct mobile as [|c0 rest]; [reflexivity|].
  destruct (format_mobile_number_digits c0 rest) as [Hall Hfmt]. cbv zeta in Hall, Hfmt.
  destruct (negb (startswith (lit "91") _) && (length _ =? 10)%nat) eqn:E1.
  - rewrite Hfmt. apply andb_true_iff in E1 as [_ Hl]. apply Nat.eqb_eq in Hl.
    now apply format_mobile_plus91.
  - destruct ((length _ =? 12)%nat && startswith (lit "91") _) eqn:E2.
    + rewrite Hfmt. destruct (twelve_digits_91 _ Hall E2) as (d & -> & Hl & Hd).
      now apply (format_mobile_plus91 d).
    + now rewrite Hfmt.
Qed.


End RelatedData.

(** The customers asked for are the customers of the orders, each once:
    an id is in the list given to the read exactly when some order has it as
    its resolved, non-null customer id, and no id is in the list twice. *)
Theorem partner_ids_requested (orders : list order_item) :
  let partner_ids := unique_ids (collect_ids partner_id orders) in
  List.NoDup partner_ids
  /\ (forall k,
        In k partner_ids
        <-> exists o, In o (transactions orders) /\ customer_key o = Some k).
Proof.
  intros partner_ids. split; [apply unique_ids_NoDup|].
  intros k. unfold partner_ids. rewrite unique_ids_In. apply collect_partner_ids_In.
Qed.

(** Whatever the reads return, a customer found in the customer map is
    stored under its own id and its mobile is a string that the normalization
    leaves unchanged (never False); a terminal found in the terminal map is
    stored under its own id. *)
Theorem fetch_related_data_entries `{Unicode}
    (read_partners : list Z -> rpc (read_value partner))
    (read_configs : list Z -> rpc (read_value terminal))
    (size : nat) (orders : list order_item) :
  let maps := fetch_related_data read_partners read_configs size orders in
  (forall k p,
     fst maps !! k = Some p ->
     p_id p = k /\ exists s, p_mobile p = Str s /\ format_mobile_number s = s)
  /\ (forall k t, snd maps !! k = Some t -> t_id t = k).
Proof.
  intros maps. unfold maps, fetch_related_data.
  set (partners := match unique_ids (collect_ids partner_id orders) with
                   | [] => Some []
                   | _ => read_in_batches read_partners size _
                   end).
  set (configs := match unique_ids (collect_ids config_id orders) with
                  | [] => Some []
                  | _ => _
                  end).
  destruct partners as [ps|], configs as [cs|]; simpl;
    try (split; intros k x Hk; rewrite lookup_empty in Hk; discriminate).
  split.
  - intros k p Hl. apply index_by_lookup in Hl as [Hin Hk]. split; [exact Hk|].
    apply in_map_iff in Hin as (raw & <- & _). simpl. apply format_mobile_field_fixed.
  - intros k t Hl. now apply index_by_lookup in Hl as [_ Hk].
Qed.


(** ** More on the customer table *)

Section CustomerTable.

Variable partner_dict : gmap Z partner.

Lemma dd_update_new_key {V : Type} (default : V) (k : Z) (f : V -> V) (d : list (Z * V)) :
  map fst (dd_update default k f d)
  = if decide (k ∈ map fst d) then map fst d else map fst d ++ [k].
Proof.
  induction d as [|[k0 v0] d IH]; cbn [dd_update map fst].
  - rewrite decide_False by apply not_elem_of_nil. reflexivity.
  - destruct (decide (k = k0)) as [->|Hk]; cbn [map fst].
    + rewrite decide_True by (apply elem_of_cons; now left). reflexivity.
    + rewrite IH. destruct (decide (k ∈ map fst d)) as [Hin|Hin].
      * rewrite decide_True by (apply elem_of_cons; now right). reflexivity.
      * rewrite decide_False; [reflexivity|].
        intros H. apply elem_of_cons in H as [E|H]; [congruence | contradiction].
Qed.

Lemma first_occurrences_In (l : list Z) (k : Z) : k ∈ first_occurrences l <-> k ∈ l.
Proof.
  rewrite !list_elem_of_In.
  induction l as [|x l IH]; simpl; [reflexivity|].
  rewrite List.filter_In, IH, negb_true_iff, Z.eqb_neq.
  destruct (decide (x = k)); intuition.
Qed.

Lemma first_occurrences_snoc (l : list Z) (x : Z) :
  first_occurrences (l ++ [x])
  = if decide (x ∈ l) then first_occurrences l else first_occurrences l ++ [x].
Proof.
  induction l as [|k l IH]; cbn [app first_occurrences].
  - rewrite decide_False by apply not_elem_of_nil. reflexivity.
  - rewrite IH. destruct (decide (x ∈ l)) as [Hin|Hin].
    + rewrite decide_True by (apply elem_of_cons; now right). reflexivity.
    + rewrite List.filter_app. cbn [List.filter].
      destruct (decide (x = k)) as [->|Hne].
      * rewrite decide_True by (apply elem_of_cons; now left).
        rewrite Z.eqb_refl. simpl. now rewrite app_nil_r.
      * rewrite decide_False by (intros H; apply elem_of_cons in H as [E|H];
                                 [congruence | contradiction]).
        apply Z.eqb_neq in Hne. rewrite Hne. reflexivity.
Qed.

Lemma customer_data_keys_order (orders : list order_item) :
  map fst (customer_data partner_dict orders)
  = first_occurrences (collect_ids partner_id orders).
Proof.
  induction orders as [|item orders IH] using rev_ind; [reflexivity|].
  rewrite customer_data_snoc. unfold collect_ids in *. rewrite flat_map_app. cbn [flat_map].
  rewrite app_nil_r. destruct item as [|o]; [simpl; now rewrite app_nil_r|].
  rewrite ids_of_partner. destruct (customer_key o) as [k|] eqn:Ek.
  - destruct (customer_step_some partner_dict (customer_data partner_dict orders) o k Ek)
      as (f & -> & _).
    rewrite dd_update_new_key, first_occurrences_snoc, IH.
    destruct (decide (k ∈ first_occurrences _)) as [Hin|Hin].
    + rewrite decide_True by now apply first_occurrences_In. reflexivity.
    + rewrite decide_False; [reflexivity|].
      intros H. apply Hin. now apply first_occurrences_In.
  - rewrite customer_step_none by exact Ek. now rewrite app_nil_r.
Qed.

End CustomerTable.

(** Every entry of the customer table is exact: its count is the number of
    orders of that customer, its total is the float accumulated from 0.0 by
    adding their amounts in the order of the list (a missing amount
    counting as 0), and its name, mobile and email are those of the
    customer in the customer map, or '' when the map does not hold the
    customer. *)
Theorem customer_entries_exact (partner_dict : gmap Z partner) (orders : list order_item) :
  Forall (fun kv =>
            let mine := List.filter (fun o => bool_decide (customer_key o = Some (fst kv)))
                                    (transactions orders) in
            c_count (snd kv) = length mine
            /\ c_total (snd kv) = running_sum (map amount mine)
            /\ c_name (snd kv) = get_field p_name (partner_dict !! fst kv)
            /\ c_mobile (snd kv) = get_field p_mobile (partner_dict !! fst kv)
            /\ c_email (snd kv) = get_field p_email (partner_dict !! fst kv))
         (customer_data partner_dict orders).
Proof.
  apply List.Forall_forall. intros [k e] Hin. cbn [fst snd].
  exact (customer_entry_In partner_dict orders k e Hin).
Qed.

(** The rows of the customer sheet come in the order in which the
    customers first appear in the order list, each customer once. *)
Theorem summary_rows_by_first_appearance (partner_dict : gmap Z partner)
    (orders : list order_item) :
  map sr_customer_id (summary_rows (customer_data partner_dict orders))
  = first_occurrences (collect_ids partner_id orders)
  /\ List.NoDup (map sr_customer_id (summary_rows (customer_data partner_dict orders))).
Proof.
  assert (Hids : map sr_customer_id (summary_rows (customer_data partner_dict orders))
                 = map fst (customer_data partner_dict orders)).
  { unfold summary_rows. rewrite map_map.
    rewrite <- (enumerate_snd (customer_data partner_dict orders) 4) at 2.
    rewrite map_map. apply map_ext. now intros [row_idx [k e]]. }
  rewrite Hids. split; [apply customer_data_keys_order | apply customer_data_NoDup].
Qed.

(** ** More on the daily table, the chart and the detail sheet *)

Section DailyTotals.

Variable strptime : str -> option datetime.

Let day_of := order_day strptime.

Lemma date_step_fields (data : list (date * day_entry)) (o : order) (d : date) :
  day_of o = Some d ->
  exists f,
    date_step strptime data (Dict o) = dd_update day_default d f data
    /\ (forall e, f e = {| d_count := d_count e + 1;
                           d_total := (d_total e + amount o)%float |}).
Proof.
  unfold day_of, order_day, date_step.
  destruct (parse_date_order strptime o) as [dt|]; [|discriminate].
  intros [= <-]. eexists. split; reflexivity.
Qed.

Lemma parses_false (o : order) : day_of o = None -> parses strptime o = false.
Proof.
  intros Hd. destruct (parses strptime o) eqn:E; [|reflexivity].
  apply parses_day in E as [d E]. unfold day_of in Hd. congruence.
Qed.

(** The total stored for a day is accumulated over the orders parsed to
    it, in the order of the list. *)
Lemma date_data_day_total (orders : list order_item) (d : date) :
  d_total (dd_get day_default d (date_data strptime orders))
  = running_sum
      (map amount
           (List.filter (fun o => bool_decide (day_of o = Some d)) (transactions orders))).
Proof.
  induction orders as [|item orders IH] using rev_ind; [reflexivity|].
  rewrite date_data_snoc, transactions_app, List.filter_app, map_app.
  destruct item as [|o]; [simpl; now rewrite app_nil_r|].
  change (transactions [Dict o]) with [o]. cbn [List.filter].
  destruct (day_of o) as [d'|] eqn:Ed.
  - destruct (date_step_fields (date_data strptime orders) o d' Ed) as (f & -> & Hf).
    rewrite dd_get_update. destruct (decide (d' = d)) as [->|Hne].
    + rewrite bool_decide_eq_true_2 by reflexivity. rewrite Hf. cbn [d_total map].
      now rewrite running_sum_snoc, IH.
    + rewrite bool_decide_eq_false_2 by congruence. simpl. now rewrite app_nil_r.
  - rewrite date_step_none by exact Ed.
    rewrite bool_decide_eq_false_2 by discriminate. simpl. now rewrite app_nil_r.
Qed.



Variable partner_dict : gmap Z partner.
Variable config_dict : gmap Z terminal.

Lemma detail_rows_from (orders : list order_item) (start : nat) :
  map (fun r => (dr_reference r, dr_amount r, dr_date r))
      (flat_map (fun '(row_num, item) =>
                   match item with
                   | NotDict => []
                   | Dict o => [write_detail_row strptime partner_dict config_dict row_num o]
                   end)
                (enumerate orders start))
  = map (fun o => (pos_reference o, amount o, parse_date_order strptime o))
        (transactions orders).
Proof.
  revert start. induction orders as [|item orders IH]; intros start; [reflexivity|].
  rewrite enumerate_cons. cbn [flat_map transactions]. rewrite !map_app.
  fold (transactions orders). rewrite (IH (S start)). now destruct item.
Qed.

(** The dashboard loop against the daily table. *)
Lemma dashboard_rows_outcome (orders : list order_item) :
  match dashboard_rows strptime partner_dict config_dict orders with
  | None => exists o, In o (transactions orders) /\ date_order o = DateAbsent
  | Some rows =>
    Forall (fun o => date_order o <> DateAbsent) (transactions orders)
    /\ map (fun r => (df_date r, df_amount r, df_has_customer r)) rows
       = flat_map (fun o => match day_of o with
                            | Some d => [(d, amount o, has_customer o)]
                            | None => []
                            end)
                  (transactions orders)
  end.
Proof.
  unfold dashboard_rows.
  induction orders as [|item orders IH] using rev_ind; [simpl; split; constructor|].
  rewrite fold_left_app, transactions_app. cbn [fold_left].
  destruct (fold_left _ orders (Some [])) as [rows|].
  - destruct IH as [Hall Hrows]. destruct item as [|o].
    + simpl. rewrite !app_nil_r. auto.
    + change (transactions [Dict o]) with [o]. rewrite flat_map_app. cbn [flat_map].
      unfold dashboard_step, day_of, order_day, parse_date_order.
      destruct (date_order o) as [| |s] eqn:Ed.
      * exists o. split; [apply in_app_iff; right; now left | exact Ed].
      * split; [apply Forall_app; split; [exact Hall | repeat constructor; congruence]|].
        now rewrite !app_nil_r.
      * destruct (strptime s) as [dt|].
        -- split; [apply Forall_app; split; [exact Hall | repeat constructor; congruence]|].
           rewrite map_app, Hrows. reflexivity.
        -- split; [apply Forall_app; split; [exact Hall | repeat constructor; congruence]|].
           now rewrite !app_nil_r.
  - destruct IH as (o & Hin & Ho). simpl. exists o. split; [apply in_app_iff; now left | exact Ho].
Qed.

Lemma day_rows_length (l : list order) :
  length (flat_map (fun o => match day_of o with
                             | Some d => [(d, amount o, has_customer o)]
                             | None => []
                             end) l)
  = length (List.filter (parses strptime) l)
  /\ map (fun x => snd (fst x))
         (flat_map (fun o => match day_of o with
                             | Some d => [(d, amount o, has_customer o)]
                             | None => []
                             end) l)
     = map amount (List.filter (parses strptime) l).
Proof.
  induction l as [|o l [IHl IHs]]; [split; reflexivity|].
  cbn [flat_map List.filter]. destruct (day_of o) as [d|] eqn:Ed.
  - assert (Hp : parses strptime o = true) by (apply parses_day; eauto).
    rewrite Hp. simpl. rewrite IHl, IHs. auto.
  - rewrite (parses_false o Ed). simpl. auto.
Qed.

End DailyTotals.

Section SheetsAgree.

Variable strptime : str -> option datetime.

Lemma analysis_counts_parsed (orders : list order_item) :
  sum_order_counts (analysis_rows strptime orders)
  = length (List.filter (parses strptime) (transactions orders)).
Proof.
  rewrite analysis_rows_counts. unfold sorted_dates.
  rewrite <- (sum_perm (fun k => d_count (dd_get day_default k (date_data strptime orders)))
                _ _ (sorted_perm _)).
  rewrite sum_by_key by apply date_data_NoDup. apply date_data_total_count.
Qed.

Lemma filter_split_length {A : Type} (p : A -> bool) (l : list A) :
  length l = length (List.filter p l) + length (List.filter (fun x => negb (p x)) l).
Proof. induction l as [|x l IH]; simpl; [reflexivity|]. destruct (p x); simpl; lia. Qed.

End SheetsAgree.

(** Every row of the daily table is exact: its total is the float
    accumulated from 0.0 by adding, in the order of the list, the amounts
    of the orders that parse to its day, its count is their number and is
    positive, and its average is total over count; and every order whose
    timestamp parses has the row of its day. *)
Theorem daily_rows_totals (strptime : str -> option datetime) (orders : list order_item) :
  let rows := analysis_rows strptime orders in
  Forall (fun r =>
            let mine := List.filter
                          (fun o => bool_decide (order_day strptime o = Some (ar_date r)))
                          (transactions orders) in
            d_total (ar_entry r) = running_sum (map amount mine)
            /\ d_count (ar_entry r) = length mine
            /\ 0 < d_count (ar_entry r)
            /\ ar_avg r = (d_total (ar_entry r) / float_of_nat (d_count (ar_entry r)))%float)
         rows
  /\ (forall o d,
        In o (transactions orders) -> order_day strptime o = Some d ->
        In d (map ar_date rows)).
Proof.
  intros rows. split.
  - apply List.Forall_forall. intros r Hr.
    assert (Hd : In (ar_date r) (map ar_date rows)) by now apply in_map.
    unfold rows in Hd. rewrite analysis_rows_dates in Hd. unfold sorted_dates in Hd.
    apply (Permutation_in _ (Permutation_sym (sorted_perm _))) in Hd.
    apply date_data_keys in Hd as (o & Hin & Ho).
    unfold rows, analysis_rows in Hr. apply in_map_iff in Hr as ([row_idx d] & <- & _).
    cbn [ar_entry ar_date ar_avg] in *.
    assert (Hpos : 0 < d_count (dd_get day_default d (date_data strptime orders))).
    { rewrite date_data_count.
      assert (Hf : In o (List.filter (fun o => bool_decide (order_day strptime o = Some d))
                                     (transactions orders))).
      { apply List.filter_In. split; [exact Hin | now apply bool_decide_eq_true_2]. }
      destruct (List.filter _ (transactions orders)); [destruct Hf | simpl; lia]. }
    split; [apply date_data_day_total|]. split; [apply date_data_count|].
    split; [exact Hpos|].
    unfold avg_value. apply Nat.ltb_lt in Hpos. now rewrite Hpos.
  - intros o d Hin Hd. unfold rows. rewrite analysis_rows_dates. unfold sorted_dates.
    apply (Permutation_in _ (sorted_perm _)). apply date_data_keys. eauto.
Qed.


(** The detail sheet has one row per order dictionary, in the order of the
    list, with the order's reference, amount and parsed timestamp (the
    current time standing in when it does not parse); so it keeps the orders
    that the daily table leaves out: its number of rows is the sum of the
    daily counts plus the number of orders whose timestamp does not parse. *)
Theorem detail_rows_mirror_orders (strptime : str -> option datetime)
    (partner_dict : gmap Z partner) (config_dict : gmap Z terminal)
    (orders : list order_item) :
  let rows := detail_rows strptime partner_dict config_dict orders in
  map (fun r => (dr_reference r, dr_amount r, dr_date r)) rows
  = map (fun o => (pos_reference o, amount o, parse_date_order strptime o))
        (transactions orders)
  /\ length rows
     = sum_order_counts (analysis_rows strptime orders)
       + length (List.filter (fun o => negb (parses strptime o)) (transactions orders)).
Proof.
  intros rows.
  assert (Hrows : map (fun r => (dr_reference r, dr_amount r, dr_date r)) rows
                  = map (fun o => (pos_reference o, amount o, parse_date_order strptime o))
                        (transactions orders))
    by apply detail_rows_from.
  split; [exact Hrows|].
  apply (f_equal (@length _)) in Hrows. rewrite !length_map in Hrows. rewrite Hrows.
  rewrite analysis_counts_parsed. apply filter_split_length.
Qed.

(** The dashboard table against the workbook.  Building it raises exactly
    when some order dictionary has no date_order key; otherwise it has one
    row per order whose timestamp parses, in the order of the list and with
    that order's amount, so its number of rows is the sum of the daily
    counts of the Sales Analysis sheet. *)
Theorem dashboard_agrees_with_sheet (strptime : str -> option datetime)
    (partner_dict : gmap Z partner) (config_dict : gmap Z terminal)
    (orders : list order_item) :
  (dashboard_rows strptime partner_dict config_dict orders = None
   <-> exists o, In o (transactions orders) /\ date_order o = DateAbsent)
  /\ (forall rows,
        dashboard_rows strptime partner_dict config_dict orders = Some rows ->
        length rows = sum_order_counts (analysis_rows strptime orders)
        /\ map df_amount rows
           = map amount (List.filter (parses strptime) (transactions orders))).
Proof.
  pose proof (dashboard_rows_outcome strptime partner_dict config_dict orders) as Hout.
  destruct (dashboard_rows strptime partner_dict config_dict orders) as [rows|].
  - destruct Hout as [Hall Hrows]. split.
    + split; [discriminate|]. intros (o & Hin & Ho).
      rewrite List.Forall_forall in Hall. now apply Hall in Hin.
    + intros rows' [= <-].
      destruct (day_rows_length strptime (transactions orders)) as [Hl Hs].
      rewrite analysis_counts_parsed, <- Hl, <- Hs, <- Hrows.
      rewrite length_map, map_map. split; reflexivity.
  - split; [tauto | discriminate].
Qed.

(** ** The report of [main] *)

Section Report.

Variable strptime : str -> option datetime.
Variable partner_dict : gmap Z partner.
Variable config_dict : gmap Z terminal.

Lemma preview_of_some (item : raw_item) :
  (exists row, preview_of partner_dict config_dict item = Some row) <-> previewable item.
Proof.
  unfold previewable. destruct item as [|o]; simpl.
  - split; [intros [row [=]] | intros (o & [=] & _)].
  - split.
    + intros [row Hrow]. exists o. split; [reflexivity|].
      destruct (raw_partner_id o) eqn:Ep; simpl in Hrow; try discriminate;
        destruct (raw_config_id o) eqn:Ec; simpl in Hrow; try discriminate;
        destruct (raw_date_order o) eqn:Ed; try discriminate;
        destruct (raw_pos_reference o) eqn:Er; try discriminate;
        destruct (raw_amount_total o) eqn:Ea; try discriminate;
        repeat split; eauto; discriminate.
    + intros (o' & [= <-] & Hp & Hc & [s Hd] & Hr & Ha).
      rewrite Hd.
      destruct (raw_pos_reference o); [|congruence].
      destruct (raw_amount_total o); [|congruence].
      destruct Hp as [-> | (id & label & ->)], Hc as [-> | (id' & label' & ->)];
        simpl; eauto.
Qed.

Lemma preview_loop_some (items : list raw_item) :
  (exists rows, preview_loop partner_dict config_dict items = Some rows)
  <-> Forall previewable items.
Proof.
  induction items as [|item items IH]; simpl.
  - split; [constructor | eauto].
  - split.
    + intros [rows H].
      destruct (preview_of partner_dict config_dict item) as [row|] eqn:E; [|discriminate].
      destruct (preview_loop partner_dict config_dict items) as [rows'|]; [|discriminate].
      constructor; [apply preview_of_some; eauto | apply IH; eauto].
    + intros H. inversion H as [|? ? Hi Hrest]; subst.
      apply preview_of_some in Hi as [row ->]. apply IH in Hrest as [rows ->]. eauto.
Qed.

Lemma transactions_of_raw (orders : list raw_item) :
  transactions (map item_of_raw orders)
  = flat_map (fun item => match item with
                          | RawDict o => [order_of_raw o]
                          | RawNotDict => []
                          end) orders.
Proof.
  induction orders as [|[|o] orders IH]; simpl; [reflexivity | exact IH | now rewrite IH].
Qed.

Lemma order_amounts_some (orders : list raw_item) :
  match order_amounts orders with
  | Some amounts =>
    Forall (fun item => item <> RawNotDict) orders
    /\ amounts = map amount (transactions (map item_of_raw orders))
    /\ length amounts = length orders
  | None => In RawNotDict orders
  end.
Proof.
  induction orders as [|[|o] orders IH]; simpl.
  - split; [constructor | split; reflexivity].
  - now left.
  - destruct (order_amounts orders) as [amounts|].
    + destruct IH as (Hall & -> & Hlen).
      split; [constructor; [discriminate | exact Hall]|].
      split; [reflexivity | simpl; now rewrite Hlen].
    + now right.
Qed.

Lemma dashboard_of_raw (orders : list raw_item) :
  (exists rows,
     dashboard_rows strptime partner_dict config_dict (map item_of_raw orders) = Some rows)
  <-> Forall (fun item => forall o, item = RawDict o -> raw_date_order o <> DateAbsent) orders.
Proof.
  pose proof (dashboard_rows_outcome strptime partner_dict config_dict (map item_of_raw orders))
    as Hout.
  rewrite transactions_of_raw in Hout.
  destruct (dashboard_rows strptime partner_dict config_dict (map item_of_raw orders))
    as [rows|].
  - destruct Hout as [Hall _]. split; [intros _ | eauto].
    rewrite List.Forall_forall in Hall. apply List.Forall_forall. intros item Hin o ->.
    apply (Hall (order_of_raw o)). apply in_flat_map. exists (RawDict o). split; [exact Hin|].
    now left.
  - destruct Hout as (o & Hin & Ho). split; [intros [rows [=]]|].
    intros Hall. rewrite List.Forall_forall in Hall.
    apply in_flat_map in Hin as ([|o'] & Hin & Ho'); [destruct Ho'|].
    destruct Ho' as [<- | []]. exfalso. now apply (Hall _ Hin o').
Qed.

Lemma has_customer_raw (o : raw_order) :
  has_customer (order_of_raw o) = true -> raw_truthy (raw_partner_id o) = true.
Proof.
  unfold has_customer, order_of_raw. simpl.
  destruct (raw_partner_id o); simpl; auto.
Qed.

Lemma customers_counted (orders : list raw_item) :
  length (List.filter has_customer (transactions (map item_of_raw orders)))
  <= length (List.filter (fun item => match item with
                                      | RawDict o => raw_truthy (raw_partner_id o)
                                      | RawNotDict => false
                                      end) orders).
Proof.
  induction orders as [|[|o] orders IH]; simpl; [lia | exact IH|].
  destruct (has_customer (order_of_raw o)) eqn:E.
  - rewrite (has_customer_raw o E). simpl. lia.
  - destruct (raw_truthy (raw_partner_id o)); simpl; lia.
Qed.

Lemma detail_amounts (orders : list order_item) :
  map dr_amount (detail_rows strptime partner_dict config_dict orders)
  = map amount (transactions orders).
Proof.
  pose proof (detail_rows_from strptime partner_dict config_dict orders 4) as H.
  apply (f_equal (map (fun x => snd (fst x)))) in H. rewrite !map_map in H. exact H.
Qed.

End Report.

(** The report is produced exactly when every element of the order list
    is a dictionary, every dictionary has a date_order key, and each of the
    first ten can be previewed: its customer and terminal fields are absent
    or a pair, its timestamp is a string, and its reference and amount are
    present.  The workbook is then the one built from the whole list. *)
Theorem report_produced_iff (strptime : str -> option datetime)
    (py_sum : list float -> float)
    (partner_dict : gmap Z partner) (config_dict : gmap Z terminal)
    (orders : list raw_item) :
  (exists stats,
     report strptime py_sum partner_dict config_dict orders
     = Some (generate_excel strptime partner_dict config_dict (map item_of_raw orders), stats))
  <-> Forall (fun item => item <> RawNotDict) orders
      /\ Forall (fun item => forall o, item = RawDict o -> raw_date_order o <> DateAbsent) orders
      /\ Forall previewable (firstn 10 orders).
Proof.
  unfold report, preview_data.
  pose proof (dashboard_of_raw strptime partner_dict config_dict orders) as Hd.
  pose proof (preview_loop_some partner_dict config_dict (firstn 10 orders)) as Hp.
  pose proof (order_amounts_some orders) as Hs.
  unfold summary_statistics.
  destruct (dashboard_rows strptime partner_dict config_dict (map item_of_raw orders)) as [rows|].
  - destruct (preview_loop partner_dict config_dict (firstn 10 orders)) as [pv|].
    + destruct (order_amounts orders) as [amounts|].
      * destruct Hs as [Hall _]. split; [intros _ | eauto].
        split; [exact Hall|]. split; [apply Hd | apply Hp]; eauto.
      * split; [intros [st [=]]|]. intros (Hall & _).
        rewrite List.Forall_forall in Hall. now apply Hall in Hs.
    + split; [intros [st [=]]|]. intros (_ & _ & Hpv). apply Hp in Hpv as [pv [=]].
  - split; [intros [st [=]]|]. intros (_ & Hdates & _). apply Hd in Hdates as [r [=]].
Qed.

(** No report for walk-in orders near the top of the list: when one of the
    first ten orders has a bare value as its customer field (the False that
    the remote service sends for an order without a customer, a bare id, or
    None), the preview raises and neither the workbook nor the statistics
    are produced. *)
Theorem report_fails_on_bare_customer (strptime : str -> option datetime)
    (py_sum : list float -> float)
    (partner_dict : gmap Z partner) (config_dict : gmap Z terminal)
    (orders : list raw_item) (o : raw_order) :
  In (RawDict o) (firstn 10 orders) ->
  (raw_partner_id o = RawNull \/ exists v, raw_partner_id o = RawInt v) ->
  report strptime py_sum partner_dict config_dict orders = None.
Proof.
  intros Hin Hbare. unfold report, preview_data.
  destruct (dashboard_rows strptime partner_dict config_dict (map item_of_raw orders));
    [|reflexivity].
  pose proof (preview_loop_some partner_dict config_dict (firstn 10 orders)) as Hp.
  destruct (preview_loop partner_dict config_dict (firstn 10 orders)) as [pv|]; [|reflexivity].
  exfalso. assert (Hall : Forall previewable (firstn 10 orders)) by (apply Hp; eauto).
  rewrite List.Forall_forall in Hall. apply Hall in Hin as (o' & [= <-] & Hpart & _).
  destruct Hbare as [E | [v E]]; rewrite E in Hpart;
    destruct Hpart as [H | (id & label & H)]; discriminate.
Qed.

(** When the report is produced, the Total Revenue of the statistics is
    what the builtin sum gives on the amount column of the detail sheet, the
    same amounts in the same order; the average order value is that total
    over the number of detail rows; and the Customer Orders count is at
    least the number of orders counted in the customer table. *)
Theorem report_statistics_agree (strptime : str -> option datetime)
    (py_sum : list float -> float)
    (partner_dict : gmap Z partner) (config_dict : gmap Z terminal)
    (orders : list raw_item) (book : workbook) (stats : statistics) :
  report strptime py_sum partner_dict config_dict orders = Some (book, stats) ->
  let items := map item_of_raw orders in
  book = generate_excel strptime partner_dict config_dict items
  /\ total_amount stats = py_sum (map dr_amount (detail book))
  /\ length (detail book) = length orders
  /\ (orders <> [] ->
      avg_order stats = (total_amount stats / float_of_nat (length (detail book)))%float)
  /\ orders_counted (customer_data partner_dict items) <= customers_with_data stats.
Proof.
  intros Hreport items. unfold report, summary_statistics in Hreport.
  destruct (dashboard_rows _ _ _ _); [|discriminate].
  destruct (preview_data _ _ _); [|discriminate].
  pose proof (order_amounts_some orders) as Hs.
  destruct (order_amounts orders) as [amounts|]; [|discriminate].
  destruct Hs as (_ & Hamounts & Hlen). injection Hreport as <- <-.
  cbn [total_amount customers_with_data avg_order detail].
  fold items.
  assert (Hdetail : map dr_amount (detail (generate_excel strptime partner_dict config_dict items))
                    = amounts).
  { unfold generate_excel. cbn [detail]. now rewrite detail_amounts, Hamounts. }
  assert (Hrows : length (detail (generate_excel strptime partner_dict config_dict items))
                  = length orders).
  { now rewrite <- Hlen, <- Hdetail, length_map. }
  split; [reflexivity|]. split; [now rewrite Hdetail|]. split; [exact Hrows|]. split.
  - intros Hne. rewrite Hrows. destruct orders; [congruence | reflexivity].
  - rewrite customer_orders_counted. apply customers_counted.
Qed.

Lemma report_fails_on_bare_customer_applied :
  report sample_strptime running_sum ∅ ∅ [raw_customer_order 8 100; raw_walk_in_order 50]
  = None.
Proof.
  eapply (report_fails_on_bare_customer sample_strptime running_sum ∅ ∅
            [raw_customer_order 8 100; raw_walk_in_order 50]).
  - right. left. reflexivity.
  - right. exists (SBool false). reflexivity.
Defined.

Lemma report_statistics_agree_applied :
  exists book stats,
    report sample_strptime running_sum ∅ ∅ [raw_customer_order 8 100; raw_customer_order 9 50]
    = Some (book, stats)
    /\ total_amount stats = 150%float
    /\ avg_order stats = 75%float
    /\ total_amount stats = running_sum (map dr_amount (detail book)).
Proof.
  destruct (report sample_strptime running_sum ∅ ∅
              [raw_customer_order 8 100; raw_customer_order 9 50])
    as [[book stats]|] eqn:E; [|vm_compute in E; discriminate].
  exists book, stats. split; [reflexivity|].
  pose proof (report_statistics_agree _ _ _ _ _ _ _ E) as (_ & Hsum & _).
  split; [|split; [|exact Hsum]];
    vm_compute in E; injection E as _ <-; reflexivity.
Defined.

Lemma fetch_related_data_entries_applied :
  exists p,
    fst (@fetch_related_data ascii_only (read_all sample_partner) (fun _ => Returned NotAList) 2
           [Dict (customer_order 8 100); Dict (walk_in_order 50)]) !! 8%Z = Some p
    /\ p_id p = 8%Z
    /\ p_mobile p = Str (lit "+919876543210").
Proof.
  destruct (fst (@fetch_related_data ascii_only (read_all sample_partner) (fun _ => Returned NotAList) 2
                   [Dict (customer_order 8 100); Dict (walk_in_order 50)]) !! 8%Z)
    as [p|] eqn:E; [|vm_compute in E; discriminate].
  exists p. split; [reflexivity|].
  split; [exact (proj1 (proj1 (@fetch_related_data_entries ascii_only _ _ _ _) _ _ E))|].
  vm_compute in E. injection E as <-. reflexivity.
Defined.
